(** * One-dimensional root finders of [find_roots.py]

    A shallow embedding of the four solvers [find_root_bisection],
    [find_root_secant], [find_root_Regula_Falsi] and [find_root].

    Numbers.  The solvers compute on Python floats, which are IEEE 754
    binary64 numbers; they are the primitive [float]s here, with the same
    rounding, signed zeros, infinities and NaN, and the same comparisons
    (every comparison with NaN is false).  The arguments [a], [b], the
    tolerances and the values of [f] are floats.  Integers ([max_steps],
    [steps], [calls], [use_bisection]) are [Z].

    Effects.  The only effects of the solvers are the calls to the
    user-supplied function [f] and the exceptions they raise.  Both are
    explicit: a computation threads the list of abscissas at which [f] has
    been evaluated so far and ends in a value or in an exception.  The
    [verbose] flag only selects diagnostic printing and is left out. *)

From Stdlib Require Import Floats ZArith String List Bool Lia.
Import ListNotations.

Set Warnings "-inexact-float".

Open Scope string_scope.
Open Scope Z_scope.
Open Scope float_scope.

(** ** Exceptions *)

(** Arguments of a [%]-formatted message: [%d] takes an integer, [%f] a
    float. *)
Inductive fmt_arg : Type :=
| FInt (n : Z)
| FReal (x : float).

(** The exceptions a call of a solver ends in.  [ValueError] is the builtin
    the argument checks raise, with its message.  [NameError],
    [UnboundLocalError] and [ZeroDivisionError] are raised by the
    interpreter: for a global name that is not bound, for a local variable
    read before its first assignment, and for a division by zero. *)
Inductive exn : Type :=
| ValueError (msg : string) (args : list fmt_arg)
| NameError (name : string)
| UnboundLocalError (name : string)
| ZeroDivisionError.

Definition msg_xtol : string :=
  "If specified, `xtol` must be positive.".
Definition msg_ftol : string :=
  "If specified, `ftol` must be positive.".
Definition msg_contraction : string :=
  "If specified, `contraction` factor must be in the interval [0, 1].".
Definition msg_use_bisection : string :=
  "`use_bisection` must be a non-negative integer.".
Definition msg_opposite_signs : string :=
  "This root-finding algorithm requires that f(a) and f(b) have opposite signs.  You may try using `find_root`, which does not have this restriction.".
Definition msg_bisection_signs : string :=
  "When `use_bisection` is positive, f(a) and f(b) must have opposite signs.".
Definition msg_initial : string :=
  "When `both` equals `False`, the initial values of x (a and b) must differ by more than xtol= %f.".
Definition msg_starting : string :=
  "When `both` equals `False`, the starting values of x (a and b) must differ by more than xtol= %f.".
Definition msg_limit : string :=
  "Limit of %d iterations has been reached.".
Definition msg_slope : string :=
  "At step %d, the slope is too close to zero!".

(** ** Computations *)

(** [OutOfFuel] is not a Python outcome: it marks a loop model that was
    given too few iterations, and is shown unreachable for each solver. *)
Inductive outcome (A : Type) : Type :=
| Ok (x : A)
| Raise (e : exn)
| OutOfFuel.

Arguments Ok {A} x.
Arguments Raise {A} e.
Arguments OutOfFuel {A}.

(** The abscissas at which [f] has been called, oldest first. *)
Definition trace : Type := list float.

Definition M (A : Type) : Type := trace -> outcome A * trace.

Definition ret {A : Type} (x : A) : M A := fun t => (Ok x, t).

Definition raise {A : Type} (e : exn) : M A := fun t => (Raise e, t).

Definition out_of_fuel {A : Type} : M A := fun t => (OutOfFuel, t).

Definition bind {A B : Type} (m : M A) (k : A -> M B) : M B :=
  fun t =>
    match m t with
    | (Ok x, t') => k x t'
    | (Raise e, t') => (Raise e, t')
    | (OutOfFuel, t') => (OutOfFuel, t')
    end.

Notation "x <- m ;; k" := (bind m (fun x => k))
  (at level 61, m at next level, right associativity).

(** One call [f(x)]. *)
Definition call (f : float -> float) (x : float) : M float :=
  fun t => (Ok (f x), (t ++ [x])%list).

(** A call of a solver starts with no evaluation made. *)
Definition run {A : Type} (m : M A) : outcome A * trace := m [].

(** The statement [raise AlgorithmFailure(msg % args)].  [find_roots.py]
    has no import and no class statement: its module namespace binds the
    four solvers and nothing else, and [AlgorithmFailure] is not a builtin.
    The statement reads the name before it builds the message, so what it
    raises is the interpreter's [NameError] for that name, at every one of
    its occurrences.  The message and its argument are kept as the source
    writes them; they do not reach the outcome. *)
Definition raise_AlgorithmFailure {A : Type} (msg : string)
    (args : list fmt_arg) : M A :=
  raise (NameError "AlgorithmFailure").

(** ** Arithmetic of the source *)

(** Float division raises on a zero divisor, of either sign. *)
Definition div (x y : float) : M float :=
  if y =? 0 then raise ZeroDivisionError else ret (x / y).

(** The builtins [min] and [max] on two arguments: the first argument is
    kept unless the second is strictly smaller (larger). *)
Definition py_min (x y : float) : float := if y <? x then y else x.
Definition py_max (x y : float) : float := if x <? y then y else x.

(** ** Local variables *)

(** The iterate pair with its function values, the latest generated point
    [c] (unbound until the first assignment) and the two counters. *)
Record locals : Type := Locals {
  a : float;
  f_a : float;
  b : float;
  f_b : float;
  c : option float;
  steps : Z;
  calls : Z
}.

(** Assignments to the local variables. *)
Definition set_pair (s : locals) (a' f_a' b' f_b' : float) : locals :=
  Locals a' f_a' b' f_b' (c s) (steps s) (calls s).
Definition set_c (s : locals) (c' : float) : locals :=
  Locals (a s) (f_a s) (b s) (f_b s) (Some c') (steps s) (calls s).
Definition set_steps (s : locals) (n : Z) : locals :=
  Locals (a s) (f_a s) (b s) (f_b s) (c s) n (calls s).
Definition set_calls (s : locals) (n : Z) : locals :=
  Locals (a s) (f_a s) (b s) (f_b s) (c s) (steps s) n.

(** What one pass through the [while True] body of the secant, Regula
    Falsi and hybrid solvers does next, unless it raises: start the next
    iteration, or [break] out of the loop. *)
Inductive flow (S : Type) : Type :=
| Next (s : S)
| Break (s : S).

Arguments Next {S} s.
Arguments Break {S} s.

(** What the code before the loop does, unless it raises: [return] one of
    the starting points, or enter the loop. *)
Inductive started : Type :=
| Accept (x : float)
| Enter (s : locals).

(** ** Convergence predicate

    The test every loop applies to a new point [c] with value [f_c] and the
    previous point [b]:
    [if both: abs(c - b) <= xtol and abs(f_c) <= ftol]
    [else:    abs(c - b) <= xtol or  abs(f_c) <= ftol]. *)
Definition converged (both : bool) (xtol ftol : float) (c b f_c : float)
    : bool :=
  if both
  then (abs (c - b) <=? xtol) && (abs f_c <=? ftol)
  else (abs (c - b) <=? xtol) || (abs f_c <=? ftol).

(** ** Code shared by the secant, Regula Falsi and hybrid solvers

    The three functions repeat the same text for the tests on the starting
    points, for the slope with its one-shot repair, and for the new point;
    each is written once here. *)

(** The code between the validation and the loop.  With [both] the two
    values are computed first; without it [f(b)] is only computed when [a]
    is not accepted. *)
Definition start (f : float -> float) (a b : float) (ftol xtol : float)
    (both : bool) (msg : string) (steps0 : Z) : M started :=
  if both then
    f_a <- call f a ;;
    f_b <- call f b ;;
    if abs (b - a) <=? xtol then
      if abs f_a <=? ftol then ret (Accept a)
      else if abs f_b <=? ftol then ret (Accept b)
      else ret (Enter (Locals a f_a b f_b None steps0 2))
    else ret (Enter (Locals a f_a b f_b None steps0 2))
  else
    if abs (b - a) <=? xtol then raise (ValueError msg [FReal xtol])
    else
      f_a <- call f a ;;
      if abs f_a <=? ftol then ret (Accept a)
      else
        f_b <- call f b ;;
        if abs f_b <=? ftol then ret (Accept b)
        else ret (Enter (Locals a f_a b f_b None steps0 2)).

(** The slope of the chord, or the [break] of the degenerate case. *)
Inductive sloped : Type :=
| Sloped (s : locals) (slope : float)
| Degenerate (s : locals).

(** [slope= (f_b - f_a)/float(b - a)] and, when its magnitude is below
    [min_slope], the shift of [b] towards [a] with a second slope. *)
Definition slope_phase (f : float -> float) (xtol min_slope : float)
    (s : locals) : M sloped :=
  slope <- div (f_b s - f_a s) (b s - a s) ;;
  if abs slope <? min_slope then
    let b' := 0.3679 * a s + 0.6321 * b s in
    f_b' <- call f b' ;;
    let s := set_calls (set_pair s (a s) (f_a s) b' f_b') (calls s + 1) in
    slope <- div (f_b s - f_a s) (b s - a s) ;;
    if abs slope <? min_slope then
      if abs (b s - a s) <=? xtol then ret (Degenerate s)
      else raise_AlgorithmFailure msg_slope [FInt (steps s)]
    else ret (Sloped s slope)
  else ret (Sloped s slope).

(** [c= b - f_b/slope; f_c= f(c); calls+= 1]: the updated locals with
    the new point and its value. *)
Definition new_point (f : float -> float) (s : locals) (slope : float)
    : M (locals * float * float) :=
  q <- div (f_b s) slope ;;
  let c' := b s - q in
  f_c' <- call f c' ;;
  ret (set_calls (set_c s c') (calls s + 1), c', f_c').

(** The value of [c] after the loop; the name is unbound when the loop was
    left before its first assignment. *)
Definition value_of_c (s : locals) : M float :=
  match c s with
  | Some x => ret x
  | None => raise (UnboundLocalError "c")
  end.

(** ** Bisection solver *)

Module Bisection.

(** The tests made on the two starting points before the loop. *)
Definition initial_return (both : bool) (ftol xtol : float)
    (a b f_a f_b : float) : option float :=
  if both then
    if abs (b - a) <=? xtol then
      if abs f_a <=? ftol then Some a
      else if abs f_b <=? ftol then Some b
      else None
    else None
  else
    if abs f_a <=? ftol then Some a
    else if abs f_b <=? ftol then Some b
    else None.

(** The replacement of one endpoint by the midpoint [c'] with value
    [f_c']:
    [if f_a * f_c < f_b * f_c: b, f_b= c, f_c]
    [else: a, f_a, b, f_b= b, f_b, c, f_c]. *)
Definition update (s : locals) (c' f_c' : float) : locals :=
  if f_a s * f_c' <? f_b s * f_c'
  then set_pair s (a s) (f_a s) c' f_c'
  else set_pair s (b s) (f_b s) c' f_c'.

(** The loop of this solver has no [break]: a pass ends in the next
    iteration, in [return c] or in an exception. *)
Inductive step : Type :=
| Continue (s : locals)
| Done (x : float).

(** The body of [while True]. *)
Definition iter (f : float -> float) (ftol xtol : float) (both : bool)
    (max_steps : Z) (s : locals) : M step :=
  let c' := 0.5 * (a s + b s) in
  f_c' <- call f c' ;;
  let s := set_calls (set_c s c') (calls s + 1) in
  if converged both xtol ftol c' (b s) f_c' then ret (Done c')
  else
    let s := update s c' f_c' in
    let s := set_steps s (steps s + 1) in
    if (steps s >? max_steps)%Z
    then raise_AlgorithmFailure msg_limit [FInt max_steps]
    else ret (Continue s).

Fixpoint loop (fuel : nat) (f : float -> float) (ftol xtol : float)
    (both : bool) (max_steps : Z) (s : locals) : M float :=
  match fuel with
  | O => out_of_fuel
  | S fuel =>
      r <- iter f ftol xtol both max_steps s ;;
      match r with
      | Continue s => loop fuel f ftol xtol both max_steps s
      | Done x => ret x
      end
  end.

Definition find_root_bisection (f : float -> float) (a b : float)
    (ftol xtol : float) (both : bool) (max_steps : Z) : M float :=
  if xtol <=? 0.0 then raise (ValueError msg_xtol [])
  else if ftol <=? 0.0 then raise (ValueError msg_ftol [])
  else
    f_a <- call f a ;;
    f_b <- call f b ;;
    if 0.0 <? f_a * f_b
    then raise_AlgorithmFailure msg_opposite_signs []
    else
      match initial_return both ftol xtol a b f_a f_b with
      | Some x => ret x
      | None =>
          loop (S (Z.to_nat max_steps)) f ftol xtol both max_steps
            (Locals a f_a b f_b None 1 2)
      end.

End Bisection.

(** ** Secant solver *)

Module Secant.

(** The body of [while True]. *)
Definition iter (f : float -> float) (ftol xtol : float) (both : bool)
    (max_steps : Z) (min_slope : float) (s : locals) : M (flow locals) :=
  r <- slope_phase f xtol min_slope s ;;
  match r with
  | Degenerate s => ret (Break s)
  | Sloped s slope =>
      p <- new_point f s slope ;;
      let '(s, c', f_c') := p in
      if converged both xtol ftol c' (b s) f_c' then ret (Break s)
      else
        let s := set_steps s (steps s + 1) in
        if (steps s >? max_steps)%Z
        then raise_AlgorithmFailure msg_limit [FInt max_steps]
        else ret (Next (set_pair s (b s) (f_b s) c' f_c'))
  end.

Fixpoint loop (fuel : nat) (f : float -> float) (ftol xtol : float)
    (both : bool) (max_steps : Z) (min_slope : float) (s : locals)
    : M float :=
  match fuel with
  | O => out_of_fuel
  | S fuel =>
      r <- iter f ftol xtol both max_steps min_slope s ;;
      match r with
      | Next s => loop fuel f ftol xtol both max_steps min_slope s
      | Break s => value_of_c s
      end
  end.

Definition find_root_secant (f : float -> float) (a b : float)
    (ftol xtol : float) (both : bool) (max_steps : Z) (min_slope : float)
    : M float :=
  if xtol <=? 0.0 then raise (ValueError msg_xtol [])
  else if ftol <=? 0.0 then raise (ValueError msg_ftol [])
  else
    r <- start f a b ftol xtol both msg_initial 1 ;;
    match r with
    | Accept x => ret x
    | Enter s =>
        loop (S (Z.to_nat max_steps)) f ftol xtol both max_steps min_slope s
    end.

End Secant.

(** ** Modified Regula Falsi solver *)

(** A value passed for an integer parameter: an [int], or an object of
    another type. *)
Inductive pyarg : Type :=
| PyInt (n : Z)
| PyOther.

(** The two names that [find_root_Regula_Falsi] reads without being given
    them as parameters and without assigning them, as the enclosing module
    namespace binds them ([None]: unbound). *)
Record globals : Type := Globals {
  g_contraction_factor : option float;
  g_use_bisection : option pyarg
}.

(** [find_roots.py] binds its four functions at module level and nothing
    else; it has no import. *)
Definition module_globals : globals := Globals None None.

(** Reading a global name. *)
Definition lookup {A : Type} (name : string) (v : option A) : M A :=
  match v with
  | Some x => ret x
  | None => raise (NameError name)
  end.

Module RegulaFalsi.

(** The update of the pair after a new point [c'] that did not meet the
    convergence test; [None] is the [continue] that leaves the locals as
    they are. *)
Definition update (s : locals) (c' f_c' : float) : option locals :=
  if f_a s * f_b s <? 0.0 then
    let x_min := py_min (a s) (b s) in
    let x_max := py_max (a s) (b s) in
    if negb ((x_min <? c') && (c' <? x_max)) then None
    else
      if 0.0 <=? f_b s * f_c'
      then Some (set_pair s (a s) (f_a s) c' f_c')
      else Some (set_pair s (b s) (f_b s) c' f_c')
  else Some (set_pair s (b s) (f_b s) c' f_c').

(** The body of [while True]. *)
Definition iter (f : float -> float) (ftol xtol : float) (both : bool)
    (max_steps : Z) (min_slope : float) (s : locals) : M (flow locals) :=
  let s := set_steps s (steps s + 1) in
  if (steps s >? max_steps)%Z
  then raise_AlgorithmFailure msg_limit [FInt max_steps]
  else
    r <- slope_phase f xtol min_slope s ;;
    match r with
    | Degenerate s => ret (Break s)
    | Sloped s slope =>
        p <- new_point f s slope ;;
        let '(s, c', f_c') := p in
        if converged both xtol ftol c' (b s) f_c' then ret (Break s)
        else
          match update s c' f_c' with
          | None => ret (Next s)
          | Some s => ret (Next s)
          end
    end.

Fixpoint loop (fuel : nat) (f : float -> float) (ftol xtol : float)
    (both : bool) (max_steps : Z) (min_slope : float) (s : locals)
    : M float :=
  match fuel with
  | O => out_of_fuel
  | S fuel =>
      r <- iter f ftol xtol both max_steps min_slope s ;;
      match r with
      | Next s => loop fuel f ftol xtol both max_steps min_slope s
      | Break s => value_of_c s
      end
  end.

(** The function as it runs in a module namespace [G]. *)
Definition find_root_Regula_Falsi_in (G : globals) (f : float -> float)
    (a b : float) (ftol xtol : float) (both : bool) (max_steps : Z)
    (min_slope : float) : M float :=
  if xtol <=? 0.0 then raise (ValueError msg_xtol [])
  else if ftol <=? 0.0 then raise (ValueError msg_ftol [])
  else
    contraction_factor <-
      lookup "contraction_factor" (g_contraction_factor G) ;;
    if negb ((0.5 <=? contraction_factor) && (contraction_factor <=? 1.0))
    then raise (ValueError msg_contraction [])
    else
      use_bisection <- lookup "use_bisection" (g_use_bisection G) ;;
      match use_bisection with
      | PyOther => raise (ValueError msg_use_bisection [])
      | PyInt n =>
          if (n <? 0)%Z then raise (ValueError msg_use_bisection [])
          else
            r <- start f a b ftol xtol both msg_starting 0 ;;
            match r with
            | Accept x => ret x
            | Enter s =>
                loop (S (Z.to_nat max_steps)) f ftol xtol both max_steps
                  min_slope s
            end
      end.

(** The function in the namespace of its own module. *)
Definition find_root_Regula_Falsi : (float -> float) -> float -> float ->
    float -> float -> bool -> Z -> float -> M float :=
  find_root_Regula_Falsi_in module_globals.

End RegulaFalsi.

(** ** Hybrid solver *)

Module Hybrid.

(** The locals of [find_root]: those of the other solvers and the
    bisection countdown. *)
Record state : Type := State {
  vars : locals;
  use_bisection : Z
}.

(** A bisection step:
    [if f_a * f_c < 0.0: b, f_b= c, f_c]
    [else: a, f_a, b, f_b= b, f_b, c, f_c], then
    [use_bisection-= 1; continue]. *)
Definition bisection_step (f : float -> float) (s : state)
    : M (flow state) :=
  let v := vars s in
  let c' := 0.5 * (a v + b v) in
  f_c' <- call f c' ;;
  let v := set_calls (set_c v c') (calls v + 1) in
  let v :=
    if f_a v * f_c' <? 0.0
    then set_pair v (a v) (f_a v) c' f_c'
    else set_pair v (b v) (f_b v) c' f_c' in
  ret (Next (State v (use_bisection s - 1))).

(** The update of the pair and of the countdown after a new Regula Falsi
    point [c'] that did not meet the convergence test. *)
Definition update (contraction_factor : float) (s : state)
    (c' f_c' : float) : state :=
  let v := vars s in
  if f_a v * f_b v <? 0.0 then
    let x_min := py_min (a v) (b v) in
    let x_max := py_max (a v) (b v) in
    if negb ((x_min <? c') && (c' <? x_max)) then State v 1
    else
      let x_rng := x_max - x_min in
      let v :=
        if 0.0 <=? f_b v * f_c'
        then set_pair v (a v) (f_a v) c' f_c'
        else set_pair v (b v) (f_b v) c' f_c' in
      if contraction_factor * x_rng <? py_max (a v) (b v) - py_min (a v) (b v)
      then State v 1
      else State v (use_bisection s)
  else State (set_pair v (b v) (f_b v) c' f_c') (use_bisection s).

(** A modified Regula Falsi step. *)
Definition regula_falsi_step (f : float -> float) (ftol xtol : float)
    (both : bool) (contraction_factor : float) (min_slope : float)
    (s : state) : M (flow state) :=
  r <- slope_phase f xtol min_slope (vars s) ;;
  match r with
  | Degenerate v => ret (Break (State v (use_bisection s)))
  | Sloped v slope =>
      p <- new_point f v slope ;;
      let '(v, c', f_c') := p in
      if converged both xtol ftol c' (b v) f_c'
      then ret (Break (State v (use_bisection s)))
      else
        ret (Next (update contraction_factor (State v (use_bisection s))
                     c' f_c'))
  end.

(** [steps+= 1]. *)
Definition count (s : state) : state :=
  State (set_steps (vars s) (steps (vars s) + 1)) (use_bisection s).

(** The body of [while True]. *)
Definition iter (f : float -> float) (ftol xtol : float) (both : bool)
    (contraction_factor : float) (max_steps : Z) (min_slope : float)
    (s : state) : M (flow state) :=
  let s := count s in
  if (steps (vars s) >? max_steps)%Z
  then raise_AlgorithmFailure msg_limit [FInt max_steps]
  else if negb (use_bisection s =? 0)%Z
  then bisection_step f s
  else regula_falsi_step f ftol xtol both contraction_factor min_slope s.

Fixpoint loop (fuel : nat) (f : float -> float) (ftol xtol : float)
    (both : bool) (contraction_factor : float) (max_steps : Z)
    (min_slope : float) (s : state) : M float :=
  match fuel with
  | O => out_of_fuel
  | S fuel =>
      r <- iter f ftol xtol both contraction_factor max_steps min_slope s ;;
      match r with
      | Next s =>
          loop fuel f ftol xtol both contraction_factor max_steps min_slope s
      | Break s => value_of_c (vars s)
      end
  end.

Definition find_root (f : float -> float) (a b : float) (ftol xtol : float)
    (both : bool) (contraction_factor : float) (max_steps : Z)
    (min_slope : float) (use_bisection : pyarg) : M float :=
  if xtol <=? 0.0 then raise (ValueError msg_xtol [])
  else if ftol <=? 0.0 then raise (ValueError msg_ftol [])
  else if negb ((0.5 <=? contraction_factor) && (contraction_factor <=? 1.0))
  then raise (ValueError msg_contraction [])
  else
    match use_bisection with
    | PyOther => raise (ValueError msg_use_bisection [])
    | PyInt n =>
        if (n <? 0)%Z then raise (ValueError msg_use_bisection [])
        else
          r <- start f a b ftol xtol both msg_starting 0 ;;
          match r with
          | Accept x => ret x
          | Enter s =>
              if negb (n =? 0)%Z && (0.0 <? f_a s * f_b s)
              then raise_AlgorithmFailure msg_bisection_signs []
              else
                loop (S (Z.to_nat max_steps)) f ftol xtol both
                  contraction_factor max_steps min_slope (State s n)
          end
    end.

End Hybrid.

(** ** Vocabulary of the statements *)

(** The four values of the iterate pair. *)
Definition pair_of (s : locals) : float * float * float * float :=
  (a s, f_a s, b s, f_b s).

(** The rule of the spec's wording for the bisection update, "keep the
    endpoint whose product with [f_c] is larger" and replace the other by
    the midpoint; it is compared with [Bisection.update]. *)
Definition keep_larger_product (s : locals) (c' f_c' : float) : locals :=
  if f_b s * f_c' <? f_a s * f_c'
  then set_pair s (a s) (f_a s) c' f_c'
  else set_pair s (b s) (f_b s) c' f_c'.

(** Test functions of the examples. *)
Definition identity (x : float) : float := x.
Definition sign_step (x : float) : float := if x <=? 1 then -1 else 1.
Definition plateau (x : float) : float := if x =? 0 then 4 else 5.
Definition constant_five (x : float) : float := 5.
Definition constant_half (x : float) : float := 0.5.
Definition notch (x : float) : float :=
  if 8000 <=? x then 1 else if 5000 <=? x then -8000 else -1.

(** The bookkeeping of a loop is sound for a trace when the stored values
    are the values of [f] at the stored points, [calls] counts the
    evaluations made, and the two points of the pair and the point bound
    to [c] are points at which [f] has been evaluated. *)
Definition sound (f : float -> float) (s : locals) (t : trace) : Prop :=
  f_a s = f (a s) /\
  f_b s = f (b s) /\
  calls s = Z.of_nat (List.length t) /\
  In (a s) t /\
  In (b s) t /\
  forall x : float, c s = Some x -> In x t.

(** The exceptions that leave the loop of the secant, Regula Falsi and
    hybrid solvers.  All three are the interpreter's: the [NameError] of
    the unbound [AlgorithmFailure], which the iteration-limit and the
    near-zero-slope [raise] statements end in, the [ZeroDivisionError] of
    a zero divisor, and the [UnboundLocalError] of the unbound [c]. *)
Definition loop_exn (e : exn) : Prop :=
  e = NameError "AlgorithmFailure" \/
  e = ZeroDivisionError \/
  e = UnboundLocalError "c".

(** [n] consecutive passes through the body of the hybrid loop; a pass
    that leaves the loop or raises ends the sequence. *)
Fixpoint hybrid_passes (n : nat) (f : float -> float) (ftol xtol : float)
    (both : bool) (contraction_factor : float) (max_steps : Z)
    (min_slope : float) (s : Hybrid.state) (t : trace)
    : outcome (flow Hybrid.state) * trace :=
  match n with
  | O => (Ok (Next s), t)
  | S n =>
      match Hybrid.iter f ftol xtol both contraction_factor max_steps
              min_slope s t with
      | (Ok (Next s'), t') =>
          hybrid_passes n f ftol xtol both contraction_factor max_steps
            min_slope s' t'
      | other => other
      end
  end.

(** * Properties *)

(** ** Facts on binary64 numbers *)

Lemma float_eqb_zero (x : float) :
  (x =? 0) = true -> exists s : bool, Prim2SF x = S754_zero s.
Proof.
  rewrite FloatAxioms.eqb_spec. change (Prim2SF 0) with (S754_zero false).
  destruct (Prim2SF x) as [s|s| |s m e]; cbn; try discriminate.
  - intros _. exists s. reflexivity.
  - destruct s; discriminate.
  - destruct s; discriminate.
Qed.

(** A product with a zero factor is a zero or NaN: it is neither below nor
    above zero, and not below another such product. *)
Lemma mul_zero_not_neg (x z : float) :
  (z =? 0) = true -> (x * z <? 0) = false.
Proof.
  intros H. apply float_eqb_zero in H. destruct H as [s H].
  rewrite ltb_spec, mul_spec, H. change (Prim2SF 0) with (S754_zero false).
  destruct (Prim2SF x); reflexivity.
Qed.

Lemma mul_zero_not_pos (x z : float) :
  (z =? 0) = true -> (0 <? x * z) = false.
Proof.
  intros H. apply float_eqb_zero in H. destruct H as [s H].
  rewrite ltb_spec, mul_spec, H. change (Prim2SF 0) with (S754_zero false).
  destruct (Prim2SF x); reflexivity.
Qed.

Lemma mul_zero_not_lt (x y z : float) :
  (z =? 0) = true -> (x * z <? y * z) = false.
Proof.
  intros H. apply float_eqb_zero in H. destruct H as [s H].
  rewrite ltb_spec, !mul_spec, H.
  destruct (Prim2SF x); destruct (Prim2SF y); reflexivity.
Qed.

(** A positive number passes the validation test [x <= 0.0]. *)
Lemma positive_not_le_zero (x : float) :
  (0 <? x) = true -> (x <=? 0) = false.
Proof.
  rewrite ltb_spec, leb_spec. change (Prim2SF 0) with (S754_zero false).
  destruct (Prim2SF x) as [s|s| |s m e]; cbn; try discriminate;
    destruct s; cbn; congruence.
Qed.

(** The convergence predicate is the conjunction of the two tolerance tests
    with [both], their disjunction without. *)
Lemma converged_spec (both : bool) (xtol ftol x y fx : float) :
  converged both xtol ftol x y fx = true <->
  if both
  then (abs (x - y) <=? xtol) = true /\ (abs fx <=? ftol) = true
  else (abs (x - y) <=? xtol) = true \/ (abs fx <=? ftol) = true.
Proof.
  unfold converged. destruct both.
  - apply andb_true_iff.
  - apply orb_true_iff.
Qed.

Lemma app_one_neq {A : Type} (l : list A) (x : A) : (l ++ [x])%list <> l.
Proof.
  intros E. apply (f_equal (@List.length A)) in E.
  rewrite List.length_app in E. cbn in E. lia.
Qed.

(** ** The loops terminate

    Every loop counts its passes in [steps] and raises once [steps]
    exceeds [max_steps], so the iteration budget the models are given is
    never used up. *)

(** Unfolds the monadic plumbing and splits on every test met. *)
Ltac step_cases :=
  cbv beta delta [bind div call ret raise raise_AlgorithmFailure out_of_fuel]
    in *;
  repeat match goal with
  | |- context [if ?x then _ else _] => destruct x eqn:?
  | |- context [match ?x with Some _ => _ | None => _ end] => destruct x eqn:?
  | _ => progress cbn beta iota zeta
  end.

Lemma bisection_iter_steps (f : float -> float) (ftol xtol : float)
    (both : bool)
    (max_steps : Z) (s : locals) (t : trace) (r : outcome Bisection.step)
    (t' : trace) :
  Bisection.iter f ftol xtol both max_steps s t = (r, t') ->
  r <> OutOfFuel /\
  forall s', r = Ok (Bisection.Continue s') ->
    steps s' = (steps s + 1)%Z /\ (steps s' <= max_steps)%Z.
Proof.
  unfold Bisection.iter, Bisection.update. step_cases;
    intros E; inversion E; subst; (split; [discriminate|]);
    intros s' E'; inversion E'; subst; cbn in *; lia.
Qed.

Lemma bisection_loop_total (f : float -> float) (ftol xtol : float)
    (both : bool)
    (max_steps : Z) (fuel : nat) :
  forall (s : locals) (t : trace),
    (Z.to_nat (max_steps - steps s) < fuel)%nat ->
    fst (Bisection.loop fuel f ftol xtol both max_steps s t) <> OutOfFuel.
Proof.
  induction fuel as [|fuel IH]; intros s t Hfuel; [lia|].
  cbn [Bisection.loop]. unfold bind at 1.
  destruct (Bisection.iter f ftol xtol both max_steps s t) as [r t'] eqn:E.
  apply bisection_iter_steps in E. destruct E as [Hr Hs].
  destruct r as [[s'|x]|e|]; cbn; try discriminate; try congruence.
  destruct (Hs s' eq_refl). apply IH. lia.
Qed.

Lemma secant_iter_steps (f : float -> float) (ftol xtol : float) (both : bool)
    (max_steps : Z) (min_slope : float) (s : locals) (t : trace)
    (r : outcome (flow locals)) (t' : trace) :
  Secant.iter f ftol xtol both max_steps min_slope s t = (r, t') ->
  r <> OutOfFuel /\
  forall s', r = Ok (Next s') ->
    steps s' = (steps s + 1)%Z /\ (steps s' <= max_steps)%Z.
Proof.
  unfold Secant.iter, slope_phase, new_point. step_cases;
    intros E; inversion E; subst;
    (split; [discriminate|]);
    intros s' E'; inversion E'; subst; cbn in *; lia.
Qed.

Lemma secant_loop_total (f : float -> float) (ftol xtol : float) (both : bool)
    (max_steps : Z) (min_slope : float) (fuel : nat) :
  forall (s : locals) (t : trace),
    (Z.to_nat (max_steps - steps s) < fuel)%nat ->
    fst (Secant.loop fuel f ftol xtol both max_steps min_slope s t)
      <> OutOfFuel.
Proof.
  induction fuel as [|fuel IH]; intros s t Hfuel; [lia|].
  cbn [Secant.loop]. unfold bind at 1.
  destruct (Secant.iter f ftol xtol both max_steps min_slope s t)
    as [r t'] eqn:E.
  apply secant_iter_steps in E. destruct E as (Hr & Hs).
  destruct r as [[s'|s']|e|]; cbn; try discriminate; try congruence.
  - destruct (Hs s' eq_refl). apply IH. lia.
  - unfold value_of_c, ret, raise. destruct (c s'); discriminate.
Qed.

Lemma regula_falsi_iter_steps (f : float -> float) (ftol xtol : float)
    (both : bool)
    (max_steps : Z) (min_slope : float) (s : locals) (t : trace)
    (r : outcome (flow locals)) (t' : trace) :
  RegulaFalsi.iter f ftol xtol both max_steps min_slope s t = (r, t') ->
  r <> OutOfFuel /\
  forall s', r = Ok (Next s') ->
    steps s' = (steps s + 1)%Z /\ (steps s' <= max_steps)%Z.
Proof.
  unfold RegulaFalsi.iter, RegulaFalsi.update, slope_phase, new_point.
  step_cases;
    intros E; inversion E; subst;
    (split; [discriminate|]);
    intros s' E'; inversion E'; subst; cbn in *; lia.
Qed.

Lemma regula_falsi_loop_total (f : float -> float) (ftol xtol : float)
    (both : bool)
    (max_steps : Z) (min_slope : float) (fuel : nat) :
  forall (s : locals) (t : trace),
    (Z.to_nat (max_steps - steps s) < fuel)%nat ->
    fst (RegulaFalsi.loop fuel f ftol xtol both max_steps min_slope s t)
      <> OutOfFuel.
Proof.
  induction fuel as [|fuel IH]; intros s t Hfuel; [lia|].
  cbn [RegulaFalsi.loop]. unfold bind at 1.
  destruct (RegulaFalsi.iter f ftol xtol both max_steps min_slope s t)
    as [r t'] eqn:E.
  apply regula_falsi_iter_steps in E. destruct E as (Hr & Hs).
  destruct r as [[s'|s']|e|]; cbn; try discriminate; try congruence.
  - destruct (Hs s' eq_refl). apply IH. lia.
  - unfold value_of_c, ret, raise. destruct (c s'); discriminate.
Qed.

Lemma hybrid_iter_steps (f : float -> float) (ftol xtol : float) (both : bool)
    (contraction_factor : float) (max_steps : Z) (min_slope : float)
    (s : Hybrid.state) (t : trace) (r : outcome (flow Hybrid.state))
    (t' : trace) :
  Hybrid.iter f ftol xtol both contraction_factor max_steps min_slope s t
    = (r, t') ->
  r <> OutOfFuel /\
  forall s', r = Ok (Next s') ->
    steps (Hybrid.vars s') = (steps (Hybrid.vars s) + 1)%Z /\
    (steps (Hybrid.vars s') <= max_steps)%Z.
Proof.
  unfold Hybrid.iter, Hybrid.count, Hybrid.bisection_step,
    Hybrid.regula_falsi_step, Hybrid.update, slope_phase, new_point.
  step_cases;
    intros E; inversion E; subst;
    (split; [discriminate|]);
    intros s' E'; inversion E'; subst; cbn in *; lia.
Qed.

Lemma hybrid_loop_total (f : float -> float) (ftol xtol : float) (both : bool)
    (contraction_factor : float) (max_steps : Z) (min_slope : float)
    (fuel : nat) :
  forall (s : Hybrid.state) (t : trace),
    (Z.to_nat (max_steps - steps (Hybrid.vars s)) < fuel)%nat ->
    fst (Hybrid.loop fuel f ftol xtol both contraction_factor max_steps
           min_slope s t) <> OutOfFuel.
Proof.
  induction fuel as [|fuel IH]; intros s t Hfuel; [lia|].
  cbn [Hybrid.loop]. unfold bind at 1.
  destruct (Hybrid.iter f ftol xtol both contraction_factor max_steps
              min_slope s t) as [r t'] eqn:E.
  apply hybrid_iter_steps in E. destruct E as (Hr & Hs).
  destruct r as [[s'|s']|e|]; cbn; try discriminate; try congruence.
  - destruct (Hs s' eq_refl). apply IH. lia.
  - unfold value_of_c, ret, raise. destruct (c (Hybrid.vars s')); discriminate.
Qed.

(** The code before the loop makes no iteration: it returns, raises, or
    hands the two starting points to the loop with [steps] as given. *)
Lemma start_steps (f : float -> float) (x y : float) (ftol xtol : float)
    (both : bool)
    (msg : string) (steps0 : Z) (t : trace) (r : outcome started)
    (t' : trace) :
  start f x y ftol xtol both msg steps0 t = (r, t') ->
  r <> OutOfFuel /\
  forall s, r = Ok (Enter s) ->
    steps s = steps0 /\ pair_of s = (x, f x, y, f y) /\ c s = None.
Proof.
  unfold start. step_cases;
    intros E; inversion E; subst;
    (split; [discriminate|]);
    intros s' E'; inversion E'; subst; cbn in *; auto.
Qed.

(** Every call of [find_root_bisection] ends, whatever [f] returns: its
    [while True] loop raises once [steps] exceeds [max_steps], so the
    passes the model allows, [max_steps + 1], are never used up. *)
Theorem find_root_bisection_total (f : float -> float) (x y : float)
    (ftol xtol : float)
    (both : bool) (max_steps : Z) (t : trace) :
  fst (Bisection.find_root_bisection f x y ftol xtol both max_steps t)
    <> OutOfFuel.
Proof.
  unfold Bisection.find_root_bisection.
  destruct (xtol <=? 0.0); [discriminate|].
  destruct (ftol <=? 0.0); [discriminate|].
  cbv beta iota delta [bind call].
  destruct (0.0 <? f x * f y); [discriminate|].
  destruct (Bisection.initial_return _ _ _ _ _ _ _); [discriminate|].
  apply bisection_loop_total. cbn. lia.
Qed.

(** Every call of [find_root_secant] ends, whatever [f] returns: its loop
    raises once [steps] exceeds [max_steps], within the passes the model
    allows. *)
Theorem find_root_secant_total (f : float -> float) (x y : float)
    (ftol xtol : float)
    (both : bool) (max_steps : Z) (min_slope : float) (t : trace) :
  fst (Secant.find_root_secant f x y ftol xtol both max_steps min_slope t)
    <> OutOfFuel.
Proof.
  unfold Secant.find_root_secant.
  destruct (xtol <=? 0.0); [discriminate|].
  destruct (ftol <=? 0.0); [discriminate|].
  unfold bind at 1.
  destruct (start f x y ftol xtol both msg_initial 1 t) as [r t'] eqn:E.
  apply start_steps in E. destruct E as (Hr & Hs).
  destruct r as [[v|s]|e|]; cbv beta iota;
    try (cbn; discriminate); try congruence.
  - destruct (Hs s eq_refl) as [Hst _].
    apply secant_loop_total. rewrite Hst. lia.
Qed.

(** The same for [find_root_Regula_Falsi], in any module namespace. *)
Theorem find_root_Regula_Falsi_total (G : globals) (f : float -> float)
    (x y : float)
    (ftol xtol : float) (both : bool) (max_steps : Z) (min_slope : float)
    (t : trace) :
  fst (RegulaFalsi.find_root_Regula_Falsi_in G f x y ftol xtol both
         max_steps min_slope t) <> OutOfFuel.
Proof.
  unfold RegulaFalsi.find_root_Regula_Falsi_in.
  destruct (xtol <=? 0.0); [discriminate|].
  destruct (ftol <=? 0.0); [discriminate|].
  unfold bind at 1, lookup.
  destruct (g_contraction_factor G) as [cf|]; [|discriminate].
  cbv beta delta [ret] iota.
  destruct (negb _); [discriminate|].
  unfold bind at 1.
  destruct (g_use_bisection G) as [[n|]|]; try discriminate.
  cbv beta delta [ret] iota.
  destruct (n <? 0)%Z; [discriminate|].
  unfold bind at 1.
  destruct (start f x y ftol xtol both msg_starting 0 t) as [r t'] eqn:E.
  apply start_steps in E. destruct E as (Hr & Hs).
  destruct r as [[v|s]|e|]; cbv beta iota;
    try (cbn; discriminate); try congruence.
  - destruct (Hs s eq_refl) as [Hst _].
    apply regula_falsi_loop_total. rewrite Hst. lia.
Qed.

(** Every call of [find_root] ends, whatever [f] returns: its loop raises
    once [steps] exceeds [max_steps], within the passes the model
    allows. *)
Theorem find_root_total (f : float -> float) (x y : float) (ftol xtol : float)
    (both : bool) (contraction_factor : float) (max_steps : Z)
    (min_slope : float)
    (use_bisection : pyarg) (t : trace) :
  fst (Hybrid.find_root f x y ftol xtol both contraction_factor max_steps
         min_slope use_bisection t) <> OutOfFuel.
Proof.
  unfold Hybrid.find_root.
  destruct (xtol <=? 0.0); [discriminate|].
  destruct (ftol <=? 0.0); [discriminate|].
  destruct (negb _); [discriminate|].
  destruct use_bisection as [n|]; [|discriminate].
  destruct (n <? 0)%Z; [discriminate|].
  unfold bind at 1.
  destruct (start f x y ftol xtol both msg_starting 0 t) as [r t'] eqn:E.
  apply start_steps in E. destruct E as (Hr & Hs).
  destruct r as [[v|s]|e|]; cbv beta iota;
    try (cbn; discriminate); try congruence.
  - destruct (Hs s eq_refl) as [Hst _].
    destruct (_ && _); [discriminate|].
    apply hybrid_loop_total. cbn. rewrite Hst. lia.
Qed.


(** ** The slope phase and the new point *)

(** The slope phase either accepts the first slope and leaves the locals
    and the trace alone, or shifts [b], calls [f] there and accepts the
    second slope. *)
Lemma slope_phase_sloped (f : float -> float) (xtol min_slope : float)
    (s : locals) (t t1 : trace) (v : locals) (slope : float) :
  slope_phase f xtol min_slope s t = (Ok (Sloped v slope), t1) ->
  (v = s /\ t1 = t /\ slope = (f_b s - f_a s) / (b s - a s)) \/
  (let b' := 0.3679 * a s + 0.6321 * b s in
   v = set_calls (set_pair s (a s) (f_a s) b' (f b')) (calls s + 1) /\
   t1 = (t ++ [b'])%list).
Proof.
  unfold slope_phase. step_cases; intros E; inversion E; subst; auto.
Qed.

(** The degenerate case: both slopes are below [min_slope] in magnitude.
    The locals then hold the shifted [b]; [c] is as it was. *)
Lemma slope_phase_degenerate (f : float -> float) (xtol min_slope : float)
    (s : locals) (t : trace) :
  (b s - a s =? 0) = false ->
  (abs ((f_b s - f_a s) / (b s - a s)) <? min_slope) = true ->
  let b' := 0.3679 * a s + 0.6321 * b s in
  (b' - a s =? 0) = false ->
  (abs ((f b' - f_a s) / (b' - a s)) <? min_slope) = true ->
  slope_phase f xtol min_slope s t =
  if abs (b' - a s) <=? xtol
  then (Ok (Degenerate
              (set_calls (set_pair s (a s) (f_a s) b' (f b')) (calls s + 1))),
        (t ++ [b'])%list)
  else (Raise (NameError "AlgorithmFailure"), (t ++ [b'])%list).
Proof.
  intros Hd0 Hs0 b' Hd1 Hs1.
  unfold slope_phase, bind, div, call, ret, raise_AlgorithmFailure, raise.
  rewrite Hd0, Hs0.
  cbn [set_calls set_pair a b f_a f_b steps]. fold b'.
  rewrite Hd1, Hs1. destruct (abs (b' - a s) <=? xtol); reflexivity.
Qed.

(** ** The hybrid solver, one iteration at a time *)

(** An iteration that passes the iteration-limit guard is a bisection step
    when the countdown is not zero and a Regula Falsi step when it is. *)
Lemma hybrid_iter_dispatch (f : float -> float) (ftol xtol : float)
    (both : bool) (contraction_factor : float) (max_steps : Z)
    (min_slope : float) (s : Hybrid.state) (t : trace) :
  (steps (Hybrid.vars s) + 1 <= max_steps)%Z ->
  Hybrid.iter f ftol xtol both contraction_factor max_steps min_slope s t =
  if (Hybrid.use_bisection s =? 0)%Z
  then Hybrid.regula_falsi_step f ftol xtol both contraction_factor
         min_slope (Hybrid.count s) t
  else Hybrid.bisection_step f (Hybrid.count s) t.
Proof.
  intros Hguard. unfold Hybrid.iter.
  cbv zeta. cbn [Hybrid.count Hybrid.vars Hybrid.use_bisection set_steps steps].
  destruct (Z.gtb_spec (steps (Hybrid.vars s) + 1) max_steps); [lia|].
  destruct (Hybrid.use_bisection s =? 0)%Z; reflexivity.
Qed.

(** A Regula Falsi step whose slope is accepted: the new point either meets
    the convergence test, and the loop is left, or the pair is updated. *)
Lemma hybrid_regula_falsi_point (f : float -> float) (ftol xtol : float)
    (both : bool) (contraction_factor : float) (min_slope : float)
    (s : Hybrid.state) (t t1 : trace) (v : locals) (slope : float) :
  slope_phase f xtol min_slope (Hybrid.vars s) t = (Ok (Sloped v slope), t1) ->
  (slope =? 0) = false ->
  let c' := b v - f_b v / slope in
  let v1 := set_calls (set_c v c') (calls v + 1) in
  Hybrid.regula_falsi_step f ftol xtol both contraction_factor min_slope s t =
  if converged both xtol ftol c' (b v) (f c')
  then (Ok (Break (Hybrid.State v1 (Hybrid.use_bisection s))),
        (t1 ++ [c'])%list)
  else (Ok (Next (Hybrid.update contraction_factor
                    (Hybrid.State v1 (Hybrid.use_bisection s)) c' (f c'))),
        (t1 ++ [c'])%list).
Proof.
  intros Hslope Hnz c' v1.
  unfold Hybrid.regula_falsi_step. unfold bind at 1. rewrite Hslope.
  unfold new_point, div, bind, call, ret. rewrite Hnz.
  cbn [set_calls set_c b]. fold c'. fold v1.
  destruct (converged both xtol ftol c' (b v) (f c')); reflexivity.
Qed.

(** With a countdown of one, the next iteration (within the iteration
    limit) is a bisection step that brings the countdown to zero, and the
    iteration after it is a Regula Falsi step. *)
Lemma hybrid_single_bisection (f : float -> float) (ftol xtol : float)
    (both : bool) (contraction_factor : float) (max_steps : Z)
    (min_slope : float) (s : Hybrid.state) (t : trace) :
  Hybrid.use_bisection s = 1%Z ->
  (steps (Hybrid.vars s) + 1 <= max_steps)%Z ->
  exists s' : Hybrid.state,
    Hybrid.iter f ftol xtol both contraction_factor max_steps min_slope s t
      = Hybrid.bisection_step f (Hybrid.count s) t /\
    Hybrid.bisection_step f (Hybrid.count s) t
      = (Ok (Next s'),
         (t ++ [0.5 * (a (Hybrid.vars s) + b (Hybrid.vars s))])%list) /\
    Hybrid.use_bisection s' = 0%Z /\
    steps (Hybrid.vars s') = (steps (Hybrid.vars s) + 1)%Z /\
    forall t' : trace,
      (steps (Hybrid.vars s') + 1 <= max_steps)%Z ->
      Hybrid.iter f ftol xtol both contraction_factor max_steps min_slope
        s' t'
      = Hybrid.regula_falsi_step f ftol xtol both contraction_factor
          min_slope (Hybrid.count s') t'.
Proof.
  intros Hub Hguard.
  eexists. split; [|split; [|split; [|split]]].
  - rewrite hybrid_iter_dispatch by assumption. rewrite Hub. reflexivity.
  - unfold Hybrid.bisection_step, bind, call, ret.
    cbn [Hybrid.count Hybrid.vars Hybrid.use_bisection set_steps a b].
    reflexivity.
  - cbn. lia.
  - cbn. destruct (_ <? _); reflexivity.
  - intros t' Hguard'. rewrite hybrid_iter_dispatch by assumption.
    cbn [Hybrid.use_bisection Hybrid.count]. rewrite Hub. reflexivity.
Qed.

(** Claim C9.  In the hybrid solver, an iteration entered with
    [use_bisection > 0] (and within the iteration limit) computes the
    midpoint [c = 0.5 * (a + b)] and [f_c = f(c)]; when [f_a * f_c < 0] it
    replaces [b] by [c], otherwise it moves the old [b] into [a] and [c]
    into [b], so a midpoint with [f(c) = 0] takes the second branch; it
    decrements [use_bisection] by one and goes to the next iteration.  The
    midpoint is the only point at which [f] is evaluated: no Regula Falsi
    code runs in that iteration. *)
Theorem hybrid_bisection_iteration (f : float -> float) (ftol xtol : float)
    (both : bool) (contraction_factor : float) (max_steps : Z)
    (min_slope : float) (s : Hybrid.state) (t : trace) :
  (0 < Hybrid.use_bisection s)%Z ->
  (steps (Hybrid.vars s) + 1 <= max_steps)%Z ->
  let v := Hybrid.vars s in
  let c' := 0.5 * (a v + b v) in
  let f_c' := f c' in
  exists v' : locals,
    Hybrid.iter f ftol xtol both contraction_factor max_steps min_slope s t
      = (Ok (Next (Hybrid.State v' (Hybrid.use_bisection s - 1))),
         (t ++ [c'])%list) /\
    Hybrid.iter f ftol xtol both contraction_factor max_steps min_slope s t
      = Hybrid.bisection_step f (Hybrid.count s) t /\
    ((f_a v * f_c' <? 0) = true -> pair_of v' = (a v, f_a v, c', f_c')) /\
    ((f_a v * f_c' <? 0) = false -> pair_of v' = (b v, f_b v, c', f_c')) /\
    ((f_c' =? 0) = true -> pair_of v' = (b v, f_b v, c', f_c')) /\
    c v' = Some c' /\
    steps v' = (steps v + 1)%Z /\
    calls v' = (calls v + 1)%Z.
Proof.
  intros Hub Hguard v c' f_c'.
  rewrite hybrid_iter_dispatch by assumption.
  destruct (Z.eqb_spec (Hybrid.use_bisection s) 0) as [E|_]; [lia|].
  unfold Hybrid.bisection_step, bind, call, ret.
  cbn [Hybrid.count Hybrid.vars Hybrid.use_bisection set_steps set_calls
       set_c a b f_a f_b calls steps].
  fold v. fold c'. fold f_c'.
  pose proof (mul_zero_not_neg (f_a v) f_c') as Hzero.
  destruct (f_a v * f_c' <? 0) eqn:Hlt;
    (eexists; split; [reflexivity|]; cbn; repeat split; auto;
     try discriminate).
  intros Hz. apply Hzero in Hz. discriminate.
Qed.

(** The theorem at [f(x) = x], the pair [(-1, 1)] and a countdown of 3:
    the midpoint is [0], where [f] vanishes. *)
Lemma hybrid_bisection_iteration_witness :
  exists v' : locals,
    Hybrid.iter identity 1e-6 1e-6 true 0.7071 3000 1e-60
      (Hybrid.State (Locals (-1) (-1) 1 1 None 0 2) 3) [-1; 1]
    = (Ok (Next (Hybrid.State v' 2)), [-1; 1; 0]) /\
    pair_of v' = (1, 1, 0, 0).
Proof.
  destruct (hybrid_bisection_iteration identity 1e-6 1e-6 true 0.7071
              3000 1e-60
              (Hybrid.State (Locals (-1) (-1) 1 1 None 0 2) 3) [-1; 1])
    as (v' & Hiter & _ & _ & _ & Hzero & _).
  - cbn. lia.
  - cbn. lia.
  - exists v'. split; [exact Hiter|]. apply Hzero. reflexivity.
Defined.

(** Claim C6.  In the hybrid solver's Regula Falsi mode, when
    [f_a * f_b < 0] at the bracket test but the new point [c] is not
    strictly between [min(a, b)] and [max(a, b)], the iteration sets
    [use_bisection] to 1 and goes to the next iteration with [a], [f_a],
    [b], [f_b] as they were at the test (which is as they were when the
    iteration began, unless the slope repair shifted [b]); the next
    iteration is a bisection step. *)
Theorem hybrid_point_outside_bracket (f : float -> float)
    (ftol xtol : float) (both : bool) (contraction_factor : float)
    (max_steps : Z) (min_slope : float) (s : Hybrid.state) (t t1 : trace)
    (v : locals) (slope : float) :
  Hybrid.use_bisection s = 0%Z ->
  (steps (Hybrid.vars s) + 1 <= max_steps)%Z ->
  slope_phase f xtol min_slope (Hybrid.vars (Hybrid.count s)) t
    = (Ok (Sloped v slope), t1) ->
  (slope =? 0) = false ->
  let c' := b v - f_b v / slope in
  converged both xtol ftol c' (b v) (f c') = false ->
  (f_a v * f_b v <? 0) = true ->
  (py_min (a v) (b v) <? c') && (c' <? py_max (a v) (b v)) = false ->
  exists v' : locals,
    Hybrid.iter f ftol xtol both contraction_factor max_steps min_slope s t
      = (Ok (Next (Hybrid.State v' 1)), (t1 ++ [c'])%list) /\
    pair_of v' = pair_of v /\
    (t1 = t -> pair_of v' = pair_of (Hybrid.vars s)) /\
    forall t2 : trace,
      (steps v' + 1 <= max_steps)%Z ->
      Hybrid.iter f ftol xtol both contraction_factor max_steps min_slope
        (Hybrid.State v' 1) t2
      = Hybrid.bisection_step f (Hybrid.count (Hybrid.State v' 1)) t2.
Proof.
  intros Hub Hguard Hslope Hnz c' Hconv Hbr Hout.
  rewrite hybrid_iter_dispatch by assumption. rewrite Hub.
  change (0 =? 0)%Z with true. cbv iota.
  rewrite (hybrid_regula_falsi_point f ftol xtol both contraction_factor
             min_slope (Hybrid.count s) t t1 v slope Hslope Hnz).
  fold c'. rewrite Hconv. unfold Hybrid.update.
  cbn [Hybrid.vars Hybrid.use_bisection set_calls set_c a b f_a f_b].
  rewrite Hbr, Hout. cbn [negb].
  eexists. split; [reflexivity|]. split; [reflexivity|]. split.
  - intros Et. apply slope_phase_sloped in Hslope.
    destruct Hslope as [(Hv & _ & _)|(_ & Ht)].
    + subst v. reflexivity.
    + exfalso. rewrite Et in Ht. symmetry in Ht. exact (app_one_neq _ _ Ht).
  - intros t2 Hguard2.
    destruct (hybrid_single_bisection f ftol xtol both contraction_factor
                max_steps min_slope
                (Hybrid.State (set_calls (set_c v c') (calls v + 1)) 1) t2
                eq_refl Hguard2) as (s' & Hiter & _).
    exact Hiter.
Qed.

(** The theorem at two neighbouring floats, [a = 1] and
    [b = 1.0000000000000002], with [f(a) = -1] and [f(b) = 1]: the chord's
    root rounds to [a], which is not strictly inside the pair. *)
Lemma hybrid_point_outside_bracket_witness :
  exists v' : locals,
    Hybrid.iter sign_step 1e-6 1e-6 true 0.7071 3000 1e-60
      (Hybrid.State (Locals 1 (-1) 1.0000000000000002 1 None 0 2) 0)
      [1; 1.0000000000000002]
    = (Ok (Next (Hybrid.State v' 1)), [1; 1.0000000000000002; 1]) /\
    pair_of v' = (1, -1, 1.0000000000000002, 1).
Proof.
  destruct (hybrid_point_outside_bracket sign_step 1e-6 1e-6 true 0.7071
              3000 1e-60
              (Hybrid.State (Locals 1 (-1) 1.0000000000000002 1 None 0 2) 0)
              [1; 1.0000000000000002] [1; 1.0000000000000002]
              (Locals 1 (-1) 1.0000000000000002 1 None 1 2)
              ((1 - -1) / (1.0000000000000002 - 1)))
    as (v' & Hiter & Hpair & _).
  - reflexivity.
  - cbn. lia.
  - vm_compute. reflexivity.
  - vm_compute. reflexivity.
  - vm_compute. reflexivity.
  - vm_compute. reflexivity.
  - vm_compute. reflexivity.
  - exists v'. split; [exact Hiter|exact Hpair].
Defined.

(** Claim C1.  In the hybrid solver, after a Regula Falsi step in which
    [f_a * f_b < 0] held and the new point [c] was strictly inside the
    pair, so that the pair was updated (to [(a, c)] when
    [f_b * f_c >= 0], to [(b, c)] otherwise): if the new width
    [max(a, b) - min(a, b)] exceeds [contraction_factor] times the width
    before the update, [use_bisection] is set to 1; the next iteration is
    then a bisection step that brings [use_bisection] back to 0, and the
    one after it is a Regula Falsi step again (each within the iteration
    limit).  If the new width does not exceed that threshold,
    [use_bisection] stays 0. *)
Theorem hybrid_slow_contraction (f : float -> float) (ftol xtol : float)
    (both : bool) (contraction_factor : float) (max_steps : Z)
    (min_slope : float) (s : Hybrid.state) (t t1 : trace) (v : locals)
    (slope : float) :
  Hybrid.use_bisection s = 0%Z ->
  (steps (Hybrid.vars s) + 1 <= max_steps)%Z ->
  slope_phase f xtol min_slope (Hybrid.vars (Hybrid.count s)) t
    = (Ok (Sloped v slope), t1) ->
  (slope =? 0) = false ->
  let c' := b v - f_b v / slope in
  let f_c' := f c' in
  converged both xtol ftol c' (b v) f_c' = false ->
  (f_a v * f_b v <? 0) = true ->
  (py_min (a v) (b v) <? c') = true ->
  (c' <? py_max (a v) (b v)) = true ->
  let x_rng := py_max (a v) (b v) - py_min (a v) (b v) in
  exists s' : Hybrid.state,
    let v' := Hybrid.vars s' in
    let width := py_max (a v') (b v') - py_min (a v') (b v') in
    Hybrid.iter f ftol xtol both contraction_factor max_steps min_slope s t
      = (Ok (Next s'), (t1 ++ [c'])%list) /\
    ((0 <=? f_b v * f_c') = true -> pair_of v' = (a v, f_a v, c', f_c')) /\
    ((0 <=? f_b v * f_c') = false -> pair_of v' = (b v, f_b v, c', f_c')) /\
    ((contraction_factor * x_rng <? width) = false ->
     Hybrid.use_bisection s' = 0%Z) /\
    ((contraction_factor * x_rng <? width) = true ->
     Hybrid.use_bisection s' = 1%Z /\
     forall t2 : trace,
       (steps v' + 1 <= max_steps)%Z ->
       exists s'' : Hybrid.state,
         Hybrid.iter f ftol xtol both contraction_factor max_steps
           min_slope s' t2
         = Hybrid.bisection_step f (Hybrid.count s') t2 /\
         Hybrid.bisection_step f (Hybrid.count s') t2
         = (Ok (Next s''), (t2 ++ [0.5 * (a v' + b v')])%list) /\
         Hybrid.use_bisection s'' = 0%Z /\
         forall t3 : trace,
           (steps (Hybrid.vars s'') + 1 <= max_steps)%Z ->
           Hybrid.iter f ftol xtol both contraction_factor max_steps
             min_slope s'' t3
           = Hybrid.regula_falsi_step f ftol xtol both contraction_factor
               min_slope (Hybrid.count s'') t3).
Proof.
  intros Hub Hguard Hslope Hnz c' f_c' Hconv Hbr Hlo Hhi x_rng.
  rewrite hybrid_iter_dispatch by assumption. rewrite Hub.
  change (0 =? 0)%Z with true. cbv iota.
  rewrite (hybrid_regula_falsi_point f ftol xtol both contraction_factor
             min_slope (Hybrid.count s) t t1 v slope Hslope Hnz).
  fold c'. fold f_c'. rewrite Hconv. unfold Hybrid.update.
  cbn [Hybrid.vars Hybrid.use_bisection Hybrid.count set_calls set_c
       a b f_a f_b].
  rewrite Hbr, Hlo, Hhi. cbn [andb negb]. fold x_rng.
  match goal with
  | |- context [if ?w then Hybrid.State ?u 1 else Hybrid.State ?u ?n] =>
      exists (Hybrid.State u (if w then 1%Z else n))
  end.
  cbv zeta. split.
  - destruct (0 <=? f_b v * f_c'); cbn [Hybrid.vars set_pair a b];
      match goal with |- context [if ?w then _ else _] => destruct w end;
      reflexivity.
  - destruct (0 <=? f_b v * f_c') eqn:Hsign;
      cbn [Hybrid.vars Hybrid.use_bisection set_pair a b];
      (split; [intros; try discriminate; reflexivity|]);
      (split; [intros; try discriminate; reflexivity|]);
      (split; [intros Hw; rewrite Hw; exact Hub|]);
      intros Hw; rewrite Hw; (split; [reflexivity|]);
      intros t2 Hguard2;
      match goal with
      | |- context [Hybrid.iter _ _ _ _ _ _ _ ?s1 t2] =>
          destruct (hybrid_single_bisection f ftol xtol both
                      contraction_factor max_steps min_slope s1 t2
                      eq_refl Hguard2)
            as (s'' & Hiter & Hstep & Hzero & _ & Hnext)
      end;
      exists s''; repeat split; assumption.
Qed.

(** The theorem at [f(x) = x] and the pair [(-3, 1)]: the chord's root is
    [0], the pair becomes [(-3, 0)], of width [3], more than
    [0.7071 * 4]. *)
Lemma hybrid_slow_contraction_witness :
  exists s' : Hybrid.state,
    Hybrid.iter identity 1e-6 1e-6 true 0.7071 3000 1e-60
      (Hybrid.State (Locals (-3) (-3) 1 1 None 0 2) 0) [-3; 1]
    = (Ok (Next s'), [-3; 1; 0]) /\
    pair_of (Hybrid.vars s') = (-3, -3, 0, 0) /\
    Hybrid.use_bisection s' = 1%Z.
Proof.
  destruct (hybrid_slow_contraction identity 1e-6 1e-6 true 0.7071
              3000 1e-60
              (Hybrid.State (Locals (-3) (-3) 1 1 None 0 2) 0)
              [-3; 1] [-3; 1]
              (Locals (-3) (-3) 1 1 None 1 2)
              ((1 - -3) / (1 - -3)))
    as (s' & Hiter & Hkeep & _ & _ & Hslow).
  - reflexivity.
  - cbn. lia.
  - vm_compute. reflexivity.
  - vm_compute. reflexivity.
  - vm_compute. reflexivity.
  - vm_compute. reflexivity.
  - vm_compute. reflexivity.
  - vm_compute. reflexivity.
  - exists s'. split; [exact Hiter|]. split.
    + apply Hkeep. vm_compute. reflexivity.
    + apply Hslow.
      assert (Hpair : pair_of (Hybrid.vars s') = (-3, -3, 0, 0))
        by (apply Hkeep; vm_compute; reflexivity).
      unfold pair_of in Hpair. injection Hpair as Ha Hfa Hb Hfb.
      rewrite Ha, Hb. vm_compute. reflexivity.
Defined.

(** ** The bisection solver *)

Lemma zero_not_pos (x : float) : (x =? 0) = true -> (0 <? x) = false.
Proof.
  intros H. apply float_eqb_zero in H. destruct H as [s H].
  rewrite ltb_spec, H. reflexivity.
Qed.

(** One pass of the bisection loop within the iteration limit: the
    midpoint is evaluated; it is returned when it meets the convergence
    test, and otherwise replaces an endpoint. *)
Lemma bisection_iter_cases (f : float -> float) (ftol xtol : float)
    (both : bool) (max_steps : Z) (s : locals) (t : trace) :
  let c' := 0.5 * (a s + b s) in
  Bisection.iter f ftol xtol both max_steps s t =
  if converged both xtol ftol c' (b s) (f c')
  then (Ok (Bisection.Done c'), (t ++ [c'])%list)
  else if (steps s + 1 >? max_steps)%Z
  then (Raise (NameError "AlgorithmFailure"),
        (t ++ [c'])%list)
  else (Ok (Bisection.Continue
              (set_steps
                 (Bisection.update (set_calls (set_c s c') (calls s + 1))
                    c' (f c'))
                 (steps s + 1))),
        (t ++ [c'])%list).
Proof.
  intros c'.
  unfold Bisection.iter, bind, call, ret, raise_AlgorithmFailure, raise.
  fold c'.
  cbn [set_calls set_c b].
  destruct (converged both xtol ftol c' (b s) (f c')); [reflexivity|].
  unfold Bisection.update. cbn [set_calls set_c a b f_a f_b].
  destruct (_ <? _); cbn [set_steps set_pair set_calls set_c steps];
    destruct (steps s + 1 >? max_steps)%Z; reflexivity.
Qed.

(** The loop only adds to the trace.  The one [raise] statement it reaches
    is that of the iteration limit, which ends in the [NameError] of the
    unbound [AlgorithmFailure], after at least one more evaluation. *)
Lemma bisection_loop_outcome (f : float -> float) (ftol xtol : float)
    (both : bool) (max_steps : Z) (fuel : nat) :
  forall (s : locals) (t : trace) (r : outcome float) (t' : trace),
    Bisection.loop fuel f ftol xtol both max_steps s t = (r, t') ->
    (exists t2 : trace,
       t' = (t ++ t2)%list /\ forall e : exn, r = Raise e -> t2 <> []) /\
    forall e : exn,
      r = Raise e -> e = NameError "AlgorithmFailure".
Proof.
  induction fuel as [|fuel IH]; intros s t r t' E.
  - cbn in E. unfold out_of_fuel in E. inversion E; subst.
    split; [|discriminate].
    exists []. split; [symmetry; apply app_nil_r|discriminate].
  - cbn [Bisection.loop] in E. unfold bind at 1 in E.
    rewrite bisection_iter_cases in E.
    destruct (converged _ _ _ _ _ _).
    + unfold ret in E. inversion E; subst.
      split; [|discriminate].
      eexists. split; [reflexivity|discriminate].
    + destruct (steps s + 1 >? max_steps)%Z.
      * inversion E; subst. split.
        -- eexists. split; [reflexivity|]. intros _ _. discriminate.
        -- intros e He. inversion He. reflexivity.
      * apply IH in E. destruct E as [[t2 [Ht _]] He]. split; [|exact He].
        exists ((0.5 * (a s + b s)) :: t2). split.
        -- rewrite Ht. rewrite <- app_assoc. reflexivity.
        -- intros _ _. discriminate.
Qed.

(** The bracket test of the bisection solver.  With [xtol > 0] and
    [ftol > 0], the statement [raise AlgorithmFailure(...)] that points to
    [find_root] is reached exactly when [f(a) * f(b) > 0], with [f]
    evaluated once at [a] and once at [b] and nowhere else; the class
    being unbound, the call ends in [NameError].  A pair with
    [f(a) * f(b) = 0] is accepted.  When the pair is accepted the two
    evaluations come first, and a call that fails does so after at least
    one more evaluation. *)
Lemma bisection_bracket_test (f : float -> float)
    (x y : float) (ftol xtol : float) (both : bool) (max_steps : Z) :
  (0 <? xtol) = true ->
  (0 <? ftol) = true ->
  let call_it := run (Bisection.find_root_bisection f x y ftol xtol both
                        max_steps) in
  ((0 <? f x * f y) = true ->
   call_it = (Raise (NameError "AlgorithmFailure"), [x; y])) /\
  ((0 <? f x * f y) = false ->
   exists (r : outcome float) (t : trace),
     call_it = (r, ([x; y] ++ t)%list) /\
     forall e : exn, r = Raise e -> t <> []) /\
  ((f x * f y =? 0) = true -> (0 <? f x * f y) = false).
Proof.
  intros Hx Hf call_it. subst call_it.
  unfold run, Bisection.find_root_bisection.
  rewrite (positive_not_le_zero _ Hx), (positive_not_le_zero _ Hf).
  cbv beta iota delta [bind call]. cbn [app].
  split; [|split].
  - intros Hpos. rewrite Hpos. reflexivity.
  - intros Hpos. rewrite Hpos.
    destruct (Bisection.initial_return both ftol xtol x y (f x) (f y)).
    + exists (Ok f0), []. split; [reflexivity|discriminate].
    + destruct (Bisection.loop (S (Z.to_nat max_steps)) f ftol xtol both
                  max_steps (Locals x (f x) y (f y) None 1 2) [x; y])
        as [r t'] eqn:E.
      apply bisection_loop_outcome in E. destruct E as [[t2 [Ht Hne]] _].
      exists r, t2. split; [rewrite Ht; reflexivity|exact Hne].
  - apply zero_not_pos.
Qed.

(** Claim C7, at the input where the code departs from it: [f(x) = x] on
    the pair [(1, 2)], both values positive, with the default tolerances
    and iteration limit.  The claim has the call raise [AlgorithmFailure]
    with the message that points to [find_root].  The code reaches that
    [raise] statement after the evaluations at [1] and [2], but the name
    [AlgorithmFailure] is bound nowhere in the module, and the call ends
    in [NameError]. *)
Theorem bisection_bracket_failure_unbound :
  run (Bisection.find_root_bisection identity 1 2 1e-6 1e-6 true 3000)
  = (Raise (NameError "AlgorithmFailure"), [1; 2]).
Proof.
  vm_compute. reflexivity.
Qed.

(** Claim C8, as amended.  Each pass of the bisection loop that neither
    returns nor hits the iteration limit, with midpoint [c] and value
    [f_c], keeps the endpoint whose product with [f_c] is the smaller one
    and replaces the other by [c]: when [f_a * f_c < f_b * f_c] the pair
    becomes [(a, c)], otherwise [(b, c)].  When [f(c) = 0] the two
    products do not differ, the pair becomes [(b, c)], and it passes the
    solver's own bracket test (its product is not above zero). *)
Theorem bisection_update_keeps_smaller_product (f : float -> float)
    (ftol xtol : float) (both : bool) (max_steps : Z) (s : locals)
    (t : trace) :
  let c' := 0.5 * (a s + b s) in
  let f_c' := f c' in
  converged both xtol ftol c' (b s) f_c' = false ->
  (steps s + 1 <= max_steps)%Z ->
  exists s' : locals,
    Bisection.iter f ftol xtol both max_steps s t
      = (Ok (Bisection.Continue s'), (t ++ [c'])%list) /\
    ((f_a s * f_c' <? f_b s * f_c') = true ->
     pair_of s' = (a s, f_a s, c', f_c')) /\
    ((f_a s * f_c' <? f_b s * f_c') = false ->
     pair_of s' = (b s, f_b s, c', f_c')) /\
    ((f_c' =? 0) = true ->
     pair_of s' = (b s, f_b s, c', f_c') /\
     (0 <? f_a s' * f_b s') = false).
Proof.
  intros c' f_c' Hconv Hguard.
  rewrite bisection_iter_cases. fold c'. fold f_c'. rewrite Hconv.
  destruct (Z.gtb_spec (steps s + 1) max_steps) as [Hgt|_]; [lia|].
  eexists. split; [reflexivity|].
  unfold Bisection.update. cbn [set_calls set_c a b f_a f_b].
  pose proof (mul_zero_not_lt (f_a s) (f_b s) f_c') as Htie.
  pose proof (mul_zero_not_pos (f_b s) f_c') as Hprod.
  destruct (f_a s * f_c' <? f_b s * f_c') eqn:Hlt; cbn.
  - split; [reflexivity|]. split; [discriminate|].
    intros Hz. apply Htie in Hz. discriminate.
  - split; [discriminate|]. split; [reflexivity|].
    intros Hz. split; [reflexivity|]. exact (Hprod Hz).
Qed.

(** The theorem at [f(x) = x] on the pair [(-1, 2)]: the midpoint is
    [0.5], the products are [-0.5] for [a] and [1] for [b], and [a] is
    kept. *)
Lemma bisection_update_keeps_smaller_product_witness :
  exists s' : locals,
    Bisection.iter identity 1e-6 1e-6 true 3000
      (Locals (-1) (-1) 2 2 None 1 2) [-1; 2]
    = (Ok (Bisection.Continue s'), [-1; 2; 0.5]) /\
    pair_of s' = (-1, -1, 0.5, 0.5).
Proof.
  destruct (bisection_update_keeps_smaller_product identity 1e-6 1e-6 true
              3000 (Locals (-1) (-1) 2 2 None 1 2) [-1; 2])
    as (s' & Hiter & Hlt & _).
  - vm_compute. reflexivity.
  - cbn. lia.
  - exists s'. split; [exact Hiter|]. apply Hlt. vm_compute. reflexivity.
Defined.

(** Claim C8 as it is worded fails: at [f(x) = x] on the pair [(-1, 2)]
    the product of [a] with [f_c] is the smaller one, [-0.5 < 1], and the
    solver keeps [a]; keeping the endpoint with the larger product would
    keep [b]. *)
Lemma bisection_update_not_larger_product :
  let s := Locals (-1) (-1) 2 2 None 1 2 in
  (f_a s * 0.5 <? f_b s * 0.5) = true /\
  pair_of (Bisection.update s 0.5 0.5) = (-1, -1, 0.5, 0.5) /\
  pair_of (keep_larger_product s 0.5 0.5) = (2, 2, 0.5, 0.5) /\
  Bisection.update s 0.5 0.5 <> keep_larger_product s 0.5 0.5.
Proof.
  cbv zeta. repeat split; try reflexivity.
  intros E. apply (f_equal a) in E. vm_compute in E.
  assert (H : (-1 =? 2) = (2 =? 2)) by (rewrite E; reflexivity).
  vm_compute in H. discriminate.
Qed.

(** ** The Regula Falsi solver *)

(** Claim C4.  Every call of [find_root_Regula_Falsi] with [xtol > 0] and
    [ftol > 0] raises [NameError] before [f] is evaluated anywhere: its
    validation reads [contraction_factor], which is neither a parameter
    nor assigned in the body nor bound in the module.  (Were that name
    bound to an admissible value, the read of [use_bisection] would raise
    in the same way.)  So no call of this solver returns a root. *)
Theorem regula_falsi_name_error (f : float -> float) (x y : float)
    (ftol xtol : float) (both : bool) (max_steps : Z) (min_slope : float) :
  ((0 <? xtol) = true ->
   (0 <? ftol) = true ->
   run (RegulaFalsi.find_root_Regula_Falsi f x y ftol xtol both max_steps
          min_slope)
   = (Raise (NameError "contraction_factor"), [])) /\
  (forall contraction_factor : float,
     (0 <? xtol) = true ->
     (0 <? ftol) = true ->
     (0.5 <=? contraction_factor) = true ->
     (contraction_factor <=? 1) = true ->
     run (RegulaFalsi.find_root_Regula_Falsi_in
            (Globals (Some contraction_factor) None) f x y ftol xtol both
            max_steps min_slope)
     = (Raise (NameError "use_bisection"), [])) /\
  (forall (r : float) (t : trace),
     run (RegulaFalsi.find_root_Regula_Falsi f x y ftol xtol both max_steps
            min_slope)
     <> (Ok r, t)).
Proof.
  unfold run, RegulaFalsi.find_root_Regula_Falsi,
    RegulaFalsi.find_root_Regula_Falsi_in.
  split; [|split].
  - intros Hx Hf.
    rewrite (positive_not_le_zero _ Hx), (positive_not_le_zero _ Hf).
    reflexivity.
  - intros cf Hx Hf Hlo Hhi.
    rewrite (positive_not_le_zero _ Hx), (positive_not_le_zero _ Hf).
    cbn [g_contraction_factor g_use_bisection lookup].
    unfold bind, ret, raise. rewrite Hlo, Hhi. reflexivity.
  - intros r t.
    destruct (xtol <=? 0.0); [discriminate|].
    destruct (ftol <=? 0.0); discriminate.
Qed.

(** The theorem at the call of the docstring's first example, made on
    this solver. *)
Lemma regula_falsi_name_error_witness :
  run (RegulaFalsi.find_root_Regula_Falsi identity 0.6 6 1e-6 1e-6 true
         3000 1e-60)
  = (Raise (NameError "contraction_factor"), []).
Proof.
  apply (regula_falsi_name_error identity 0.6 6 1e-6 1e-6 true 3000 1e-60);
    reflexivity.
Defined.

(** ** The hybrid solver: the code before the loop *)

(** Claim C10.  In [find_root] the bracket precondition of
    [use_bisection > 0] is tested after the convergence shortcut on the
    starting points: with [both] set, [|b - a| <= xtol] and one of
    [|f(a)|], [|f(b)|] within [ftol], the solver returns [a] or [b] (after
    evaluating [f] at both) although [use_bisection > 0] and
    [f(a) * f(b) > 0]; it does not raise the bracket failure. *)
Theorem hybrid_shortcut_before_bracket_check (f : float -> float)
    (x y : float) (ftol xtol : float) (contraction_factor : float)
    (max_steps : Z) (min_slope : float) (n : Z) :
  (0 <? xtol) = true ->
  (0 <? ftol) = true ->
  (0.5 <=? contraction_factor) = true ->
  (contraction_factor <=? 1) = true ->
  (0 < n)%Z ->
  (0 <? f x * f y) = true ->
  (abs (y - x) <=? xtol) = true ->
  (abs (f x) <=? ftol) = true \/ (abs (f y) <=? ftol) = true ->
  exists r : float,
    run (Hybrid.find_root f x y ftol xtol true contraction_factor max_steps
           min_slope (PyInt n))
    = (Ok r, [x; y]) /\
    (r = x \/ r = y).
Proof.
  intros Hx Hf Hlo Hhi Hn Hpos Hclose Hsmall.
  unfold run, Hybrid.find_root.
  rewrite (positive_not_le_zero _ Hx), (positive_not_le_zero _ Hf).
  rewrite Hlo, Hhi. cbn [andb negb].
  destruct (Z.ltb_spec n 0) as [Hneg|_]; [lia|].
  unfold start, bind, call, ret. cbn [app]. rewrite Hclose.
  destruct (abs (f x) <=? ftol) eqn:Ha.
  - exists x. split; [reflexivity|left; reflexivity].
  - destruct Hsmall as [Hs|Hs]; [discriminate|]. rewrite Hs.
    exists y. split; [reflexivity|right; reflexivity].
Qed.

(** The theorem at the constant function [0.5] on the pair [(0, 0.5)]
    with both tolerances 1 and one initial bisection step asked for. *)
Lemma hybrid_shortcut_before_bracket_check_witness :
  exists r : float,
    run (Hybrid.find_root constant_half 0 0.5 1 1 true 0.7071 3000 1e-60
           (PyInt 1))
    = (Ok r, [0; 0.5]) /\
    (r = 0 \/ r = 0.5).
Proof.
  apply (hybrid_shortcut_before_bracket_check constant_half 0 0.5 1 1
           0.7071 3000 1e-60 1);
    try reflexivity.
  left. reflexivity.
Defined.

(** Without the shortcut the same starting values are refused: with
    [use_bisection > 0] and [f(a) * f(b) > 0] the [raise] statement of the
    bracket test is reached once the starting points have been passed on
    to the loop, and ends in the [NameError] of the unbound
    [AlgorithmFailure]. *)
Lemma hybrid_bracket_precondition (f : float -> float) (x y : float)
    (ftol xtol : float) (both : bool) (contraction_factor : float)
    (max_steps : Z) (min_slope : float) (n : Z) (s : locals) (t : trace) :
  (0 <? xtol) = true ->
  (0 <? ftol) = true ->
  (0.5 <=? contraction_factor) = true ->
  (contraction_factor <=? 1) = true ->
  (0 < n)%Z ->
  start f x y ftol xtol both msg_starting 0 [] = (Ok (Enter s), t) ->
  (0 <? f_a s * f_b s) = true ->
  run (Hybrid.find_root f x y ftol xtol both contraction_factor max_steps
         min_slope (PyInt n))
  = (Raise (NameError "AlgorithmFailure"), t).
Proof.
  intros Hx Hf Hlo Hhi Hn Hstart Hpos.
  unfold run, Hybrid.find_root.
  rewrite (positive_not_le_zero _ Hx), (positive_not_le_zero _ Hf).
  rewrite Hlo, Hhi. cbn [andb negb].
  destruct (Z.ltb_spec n 0) as [Hneg|_]; [lia|].
  unfold bind at 1. rewrite Hstart. rewrite Hpos.
  destruct (Z.eqb_spec n 0) as [E|_]; [lia|]. reflexivity.
Qed.

(** ** The secant solver *)

(** After a pass of the secant loop that goes on to the next iteration,
    [c] is bound to the current [b]: the new point has become [b]. *)
Lemma secant_next_c (f : float -> float) (ftol xtol : float) (both : bool)
    (max_steps : Z) (min_slope : float) (s s' : locals) (t t' : trace) :
  Secant.iter f ftol xtol both max_steps min_slope s t = (Ok (Next s'), t') ->
  c s' = Some (b s').
Proof.
  unfold Secant.iter, slope_phase, new_point. step_cases;
    intros E; inversion E; subst; reflexivity.
Qed.

(** Claim C5, as amended.  In the secant solver, when [|slope|] is below
    [min_slope] and, after the shift [b' = 0.3679 * a + 0.6321 * b] with
    the slope recomputed, still is: if [|b' - a| > xtol] the solver
    returns no value, the call ends in an exception at the [raise]
    statement of the near-zero slope, with [f] evaluated at [b'] and no
    further (the exception is the [NameError] of the unbound
    [AlgorithmFailure]); if [|b' - a| <= xtol] it leaves the loop and
    returns the value of [c], the point generated by the iteration before
    (from the second iteration on, the [b] with which this iteration
    began), and not the shifted [b']. *)
Theorem secant_degenerate_slope (f : float -> float) (ftol xtol : float)
    (both : bool) (max_steps : Z) (min_slope : float) (s : locals)
    (t : trace) (fuel : nat) :
  (b s - a s =? 0) = false ->
  (abs ((f_b s - f_a s) / (b s - a s)) <? min_slope) = true ->
  let b' := 0.3679 * a s + 0.6321 * b s in
  (b' - a s =? 0) = false ->
  (abs ((f b' - f_a s) / (b' - a s)) <? min_slope) = true ->
  ((abs (b' - a s) <=? xtol) = false ->
   Secant.loop (S fuel) f ftol xtol both max_steps min_slope s t
   = (Raise (NameError "AlgorithmFailure"), (t ++ [b'])%list)) /\
  ((abs (b' - a s) <=? xtol) = true ->
   (forall x : float,
      c s = Some x ->
      Secant.loop (S fuel) f ftol xtol both max_steps min_slope s t
      = (Ok x, (t ++ [b'])%list)) /\
   (c s = Some (b s) ->
    Secant.loop (S fuel) f ftol xtol both max_steps min_slope s t
    = (Ok (b s), (t ++ [b'])%list))).
Proof.
  intros Hd0 Hs0 b' Hd1 Hs1.
  pose proof (slope_phase_degenerate f xtol min_slope s t Hd0 Hs0 Hd1 Hs1)
    as Hphase.
  fold b' in Hphase.
  assert (Hloop :
            Secant.loop (S fuel) f ftol xtol both max_steps min_slope s t =
            if abs (b' - a s) <=? xtol
            then match c s with
                 | Some x => (Ok x, (t ++ [b'])%list)
                 | None => (Raise (UnboundLocalError "c"), (t ++ [b'])%list)
                 end
            else (Raise (NameError "AlgorithmFailure"), (t ++ [b'])%list)).
  { cbn [Secant.loop]. unfold bind at 1. unfold Secant.iter.
    unfold bind at 1. rewrite Hphase.
    destruct (abs (b' - a s) <=? xtol); [|reflexivity].
    unfold ret, value_of_c, raise. cbn [set_calls set_pair c].
    destruct (c s); reflexivity. }
  rewrite Hloop. split.
  - intros Hfar. rewrite Hfar. reflexivity.
  - intros Hnear. rewrite Hnear. split.
    + intros x Hc. rewrite Hc. reflexivity.
    + intros Hc. rewrite Hc. reflexivity.
Qed.

(** The theorem in the second iteration of a run on [plateau] (4 at 0,
    5 elsewhere) from the pair [(0, 1)] with [xtol = 10]: the chord of the
    pair [(1, -4)] is flat, and so is the chord after the shift. *)
Lemma secant_degenerate_slope_witness :
  Secant.loop 1 plateau 1 10 true 3000 1e-60
    (Locals 1 5 (-4) 5 (Some (-4)) 2 3) [0; 1; -4]
  = (Ok (-4), [0; 1; -4; 0.3679 * 1 + 0.6321 * -4]).
Proof.
  apply (secant_degenerate_slope plateau 1 10 true 3000 1e-60
           (Locals 1 5 (-4) 5 (Some (-4)) 2 3) [0; 1; -4] 0);
    reflexivity.
Defined.

(** Claim C5 as it is worded fails: in the run just described the solver
    returns [-4], the [b] of before the shift, while the current [b] is
    the shifted one, about [-2.1605]. *)
Lemma secant_degenerate_returns_stale_point :
  run (Secant.find_root_secant plateau 0 1 1 10 true 3000 1e-60)
  = (Ok (-4), [0; 1; -4; 0.3679 * 1 + 0.6321 * -4]) /\
  exists s' : locals,
    Secant.iter plateau 1 10 true 3000 1e-60
      (Locals 1 5 (-4) 5 (Some (-4)) 2 3) [0; 1; -4]
    = (Ok (Break s'), [0; 1; -4; 0.3679 * 1 + 0.6321 * -4]) /\
    b s' = 0.3679 * 1 + 0.6321 * -4 /\
    (abs (b s' - a s') <=? 10) = true /\
    c s' = Some (-4) /\
    (b s' =? -4) = false.
Proof.
  split; [vm_compute; reflexivity|].
  eexists. split; [vm_compute; reflexivity|].
  repeat split; vm_compute; reflexivity.
Qed.

(** In the first iteration the same exit finds [c] unbound: on a constant
    function the solver ends in [UnboundLocalError]. *)
Lemma secant_degenerate_first_iteration :
  run (Secant.find_root_secant constant_five 0 1.5 1e-6 1 true 3000 1e-60)
  = (Raise (UnboundLocalError "c"), [0; 1.5; 0.3679 * 0 + 0.6321 * 1.5]).
Proof. vm_compute. reflexivity. Qed.

(** ** Bracket preservation *)

(** Claim C3, evaluated where the code departs from it.  [find_root] is
    called on [f(x) = x] with the pair [(-1, 1)], which brackets the root
    [0], and three initial bisection steps.  The first midpoint is the
    root itself; the tie [f_a * f_c = 0] moves it into [b], the next tie
    moves it into [a], and the third step, testing [f_a * f_c < 0] with
    [f_a = 0], drops it: the pair is then [(0.5, 0.25)], with
    [f(a) * f(b) > 0]. *)
Theorem hybrid_bisection_loses_bracket :
  let s0 := Hybrid.State (Locals (-1) (-1) 1 1 None 0 2) 3 in
  let step := Hybrid.iter identity 1e-6 1e-6 true 0.7071 3000 1e-60 in
  run (Hybrid.find_root identity (-1) 1 1e-6 1e-6 true 0.7071 3000 1e-60
         (PyInt 3))
  = Hybrid.loop (S (Z.to_nat 3000)) identity 1e-6 1e-6 true 0.7071 3000
      1e-60 s0 [-1; 1] /\
  (f_a (Hybrid.vars s0) * f_b (Hybrid.vars s0) <? 0) = true /\
  exists s1 s2 s3 : Hybrid.state,
    step s0 [-1; 1] = (Ok (Next s1), [-1; 1; 0]) /\
    pair_of (Hybrid.vars s1) = (1, 1, 0, 0) /\
    step s1 [-1; 1; 0] = (Ok (Next s2), [-1; 1; 0; 0.5]) /\
    pair_of (Hybrid.vars s2) = (0, 0, 0.5, 0.5) /\
    step s2 [-1; 1; 0; 0.5] = (Ok (Next s3), [-1; 1; 0; 0.5; 0.25]) /\
    pair_of (Hybrid.vars s3) = (0.5, 0.5, 0.25, 0.25) /\
    (f_a (Hybrid.vars s3) * f_b (Hybrid.vars s3) <=? 0) = false /\
    (0 <? f_a (Hybrid.vars s3) * f_b (Hybrid.vars s3)) = true.
Proof.
  cbv zeta. split; [vm_compute; reflexivity|]. split; [reflexivity|].
  do 3 eexists.
  split; [vm_compute; reflexivity|]. split; [reflexivity|].
  split; [vm_compute; reflexivity|]. split; [reflexivity|].
  split; [vm_compute; reflexivity|]. repeat split; reflexivity.
Qed.

(** The slope repair breaks the bracket as well, in the hybrid solver and
    in the loop body of the Regula Falsi solver: on [notch] with
    [min_slope = 1] the pair [(0, 10000)] has values [-1] and [1], the
    shifted [b' = 6321] has value [-8000], and the pass ends with the pair
    [(6321, c)] whose values are both negative. *)
Lemma slope_repair_loses_bracket :
  let v0 := Locals 0 (-1) 10000 1 None 0 2 in
  (f_a v0 * f_b v0 <? 0) = true /\
  (exists s1 : Hybrid.state,
     fst (Hybrid.iter notch 1e-6 1e-6 true 0.7071 3000 1 (Hybrid.State v0 0)
            [0; 10000])
     = Ok (Next s1) /\
     a (Hybrid.vars s1) = 6321 /\
     f_a (Hybrid.vars s1) = -8000 /\
     f_b (Hybrid.vars s1) = -1 /\
     (0 <? f_a (Hybrid.vars s1) * f_b (Hybrid.vars s1)) = true) /\
  (exists v1 : locals,
     fst (RegulaFalsi.iter notch 1e-6 1e-6 true 3000 1 v0 [0; 10000])
     = Ok (Next v1) /\
     (0 <? f_a v1 * f_b v1) = true).
Proof.
  cbv zeta. split; [reflexivity|]. split.
  - eexists. split; [vm_compute; reflexivity|]. repeat split; reflexivity.
  - eexists. split; [vm_compute; reflexivity|]. reflexivity.
Qed.

(** ** The convergence test *)

(** A pass of the secant loop whose slope is accepted. *)
Lemma secant_iter_point (f : float -> float) (ftol xtol : float)
    (both : bool) (max_steps : Z) (min_slope : float) (s : locals)
    (t t1 : trace) (v : locals) (slope : float) :
  slope_phase f xtol min_slope s t = (Ok (Sloped v slope), t1) ->
  (slope =? 0) = false ->
  let c' := b v - f_b v / slope in
  let v1 := set_calls (set_c v c') (calls v + 1) in
  Secant.iter f ftol xtol both max_steps min_slope s t =
  if converged both xtol ftol c' (b v) (f c')
  then (Ok (Break v1), (t1 ++ [c'])%list)
  else if (steps v + 1 >? max_steps)%Z
  then (Raise (NameError "AlgorithmFailure"),
        (t1 ++ [c'])%list)
  else (Ok (Next (set_pair (set_steps v1 (steps v + 1)) (b v) (f_b v)
                    c' (f c'))),
        (t1 ++ [c'])%list).
Proof.
  intros Hslope Hnz c' v1.
  unfold Secant.iter. unfold bind at 1. rewrite Hslope.
  unfold new_point, div, bind, call, ret, raise_AlgorithmFailure, raise.
  rewrite Hnz.
  cbn [set_calls set_c set_steps a b f_a f_b steps]. fold c'. fold v1.
  destruct (converged both xtol ftol c' (b v) (f c')); [reflexivity|].
  destruct (steps v + 1 >? max_steps)%Z; reflexivity.
Qed.

(** A pass of the Regula Falsi loop whose slope is accepted. *)
Lemma regula_falsi_iter_point (f : float -> float) (ftol xtol : float)
    (both : bool) (max_steps : Z) (min_slope : float) (s : locals)
    (t t1 : trace) (v : locals) (slope : float) :
  (steps s + 1 <= max_steps)%Z ->
  slope_phase f xtol min_slope (set_steps s (steps s + 1)) t
    = (Ok (Sloped v slope), t1) ->
  (slope =? 0) = false ->
  let c' := b v - f_b v / slope in
  let v1 := set_calls (set_c v c') (calls v + 1) in
  RegulaFalsi.iter f ftol xtol both max_steps min_slope s t =
  if converged both xtol ftol c' (b v) (f c')
  then (Ok (Break v1), (t1 ++ [c'])%list)
  else (Ok (Next match RegulaFalsi.update v1 c' (f c') with
                 | Some v2 => v2
                 | None => v1
                 end),
        (t1 ++ [c'])%list).
Proof.
  intros Hguard Hslope Hnz c' v1.
  unfold RegulaFalsi.iter. cbv zeta. cbn [set_steps steps].
  destruct (Z.gtb_spec (steps s + 1) max_steps) as [Hgt|_]; [lia|].
  unfold bind at 1. fold (set_steps s (steps s + 1)). rewrite Hslope.
  unfold new_point, div, bind, call, ret. rewrite Hnz.
  cbn [set_calls set_c b]. fold c'. fold v1.
  destruct (converged both xtol ftol c' (b v) (f c')); [reflexivity|].
  destruct (RegulaFalsi.update v1 c' (f c')); reflexivity.
Qed.

(** Claim C2, as amended.  The convergence predicate on a new point [c]
    with value [f(c)] and the previous point [b] is
    [|c - b| <= xtol and |f(c)| <= ftol] with [both], and the disjunction
    of the two tests without.  In the bisection solver, in the secant
    solver, in the loop of the Regula Falsi solver and in the Regula Falsi
    steps of the hybrid solver it is evaluated on every new point [c], and
    the solver returns [c] when it holds.  The bisection steps of the
    hybrid solver evaluate no convergence predicate: whatever the
    midpoint, they go on to the next iteration. *)
Theorem convergence_test_after_new_point (f : float -> float)
    (ftol xtol : float) (both : bool) (contraction_factor : float)
    (max_steps : Z) (min_slope : float) :
  (forall x y fx : float,
     converged both xtol ftol x y fx = true <->
     if both
     then (abs (x - y) <=? xtol) = true /\ (abs fx <=? ftol) = true
     else (abs (x - y) <=? xtol) = true \/ (abs fx <=? ftol) = true) /\
  (forall (s : locals) (t : trace) (fuel : nat),
     let c' := 0.5 * (a s + b s) in
     converged both xtol ftol c' (b s) (f c') = true ->
     Bisection.loop (S fuel) f ftol xtol both max_steps s t
     = (Ok c', (t ++ [c'])%list)) /\
  (forall (s : locals) (t t1 : trace) (v : locals) (slope : float)
          (fuel : nat),
     slope_phase f xtol min_slope s t = (Ok (Sloped v slope), t1) ->
     (slope =? 0) = false ->
     let c' := b v - f_b v / slope in
     converged both xtol ftol c' (b v) (f c') = true ->
     Secant.loop (S fuel) f ftol xtol both max_steps min_slope s t
     = (Ok c', (t1 ++ [c'])%list)) /\
  (forall (s : locals) (t t1 : trace) (v : locals) (slope : float)
          (fuel : nat),
     (steps s + 1 <= max_steps)%Z ->
     slope_phase f xtol min_slope (set_steps s (steps s + 1)) t
       = (Ok (Sloped v slope), t1) ->
     (slope =? 0) = false ->
     let c' := b v - f_b v / slope in
     converged both xtol ftol c' (b v) (f c') = true ->
     RegulaFalsi.loop (S fuel) f ftol xtol both max_steps min_slope s t
     = (Ok c', (t1 ++ [c'])%list)) /\
  (forall (s : Hybrid.state) (t t1 : trace) (v : locals) (slope : float)
          (fuel : nat),
     Hybrid.use_bisection s = 0%Z ->
     (steps (Hybrid.vars s) + 1 <= max_steps)%Z ->
     slope_phase f xtol min_slope (Hybrid.vars (Hybrid.count s)) t
       = (Ok (Sloped v slope), t1) ->
     (slope =? 0) = false ->
     let c' := b v - f_b v / slope in
     converged both xtol ftol c' (b v) (f c') = true ->
     Hybrid.loop (S fuel) f ftol xtol both contraction_factor max_steps
       min_slope s t
     = (Ok c', (t1 ++ [c'])%list)) /\
  (forall (s : Hybrid.state) (t : trace),
     (0 < Hybrid.use_bisection s)%Z ->
     (steps (Hybrid.vars s) + 1 <= max_steps)%Z ->
     exists s' : Hybrid.state,
       Hybrid.iter f ftol xtol both contraction_factor max_steps min_slope
         s t
       = (Ok (Next s'),
          (t ++ [0.5 * (a (Hybrid.vars s) + b (Hybrid.vars s))])%list)).
Proof.
  split; [intros x y fx; apply converged_spec|].
  split; [|split; [|split; [|split]]].
  - intros s t fuel c' Hconv.
    cbn [Bisection.loop]. unfold bind at 1.
    rewrite bisection_iter_cases. fold c'. rewrite Hconv. reflexivity.
  - intros s t t1 v slope fuel Hslope Hnz c' Hconv.
    cbn [Secant.loop]. unfold bind at 1.
    rewrite (secant_iter_point f ftol xtol both max_steps min_slope s t t1
               v slope Hslope Hnz).
    fold c'. rewrite Hconv. reflexivity.
  - intros s t t1 v slope fuel Hguard Hslope Hnz c' Hconv.
    cbn [RegulaFalsi.loop]. unfold bind at 1.
    rewrite (regula_falsi_iter_point f ftol xtol both max_steps min_slope
               s t t1 v slope Hguard Hslope Hnz).
    fold c'. rewrite Hconv. reflexivity.
  - intros s t t1 v slope fuel Hub Hguard Hslope Hnz c' Hconv.
    cbn [Hybrid.loop]. unfold bind at 1.
    rewrite hybrid_iter_dispatch by assumption. rewrite Hub.
    change (0 =? 0)%Z with true. cbv iota.
    rewrite (hybrid_regula_falsi_point f ftol xtol both contraction_factor
               min_slope (Hybrid.count s) t t1 v slope Hslope Hnz).
    fold c'. rewrite Hconv. reflexivity.
  - intros s t Hub Hguard.
    rewrite hybrid_iter_dispatch by assumption.
    destruct (Z.eqb_spec (Hybrid.use_bisection s) 0) as [E|_]; [lia|].
    unfold Hybrid.bisection_step, bind, call, ret.
    cbn [Hybrid.count Hybrid.vars set_steps a b].
    eexists. reflexivity.
Qed.

(** The theorem at [f(x) = x]: a bisection-solver pass on the pair
    [(-1, 1)] with [xtol = 1] returns the midpoint [0], and a bisection
    step of the hybrid solver on the same pair goes on. *)
Lemma convergence_test_after_new_point_witness :
  Bisection.loop 1 identity 1e-6 1 true 3000
    (Locals (-1) (-1) 1 1 None 1 2) [-1; 1]
  = (Ok 0, [-1; 1; 0]) /\
  exists s' : Hybrid.state,
    Hybrid.iter identity 1e-6 1 true 0.7071 3000 1e-60
      (Hybrid.State (Locals (-1) (-1) 1 1 None 0 2) 1) [-1; 1]
    = (Ok (Next s'), [-1; 1; 0]).
Proof.
  destruct (convergence_test_after_new_point identity 1e-6 1 true 0.7071
              3000 1e-60) as (_ & Hbis & _ & _ & _ & Hmode).
  split.
  - apply (Hbis (Locals (-1) (-1) 1 1 None 1 2) [-1; 1] 0%nat).
    vm_compute. reflexivity.
  - apply (Hmode (Hybrid.State (Locals (-1) (-1) 1 1 None 0 2) 1) [-1; 1]).
    + cbn. lia.
    + cbn. lia.
Defined.

(** Claim C2 as it is worded fails for the bisection steps of the hybrid
    solver.  [find_root] is called on [f(x) = x] with the pair [(-1, 1)],
    tolerances [0.5], [both] unset, one bisection step and
    [max_steps = 1].  The bisection step generates [c = 0] with
    [f(c) = 0], which meets the predicate against [b = 1]; the step goes
    on nevertheless, and the call ends at the [raise] statement of the
    iteration limit, in the [NameError] of the unbound
    [AlgorithmFailure], instead of returning [c]. *)
Lemma hybrid_bisection_point_not_tested :
  let s0 := Hybrid.State (Locals (-1) (-1) 1 1 None 0 2) 1 in
  let c' := 0.5 * (a (Hybrid.vars s0) + b (Hybrid.vars s0)) in
  converged false 0.5 0.5 c' (b (Hybrid.vars s0)) (identity c') = true /\
  (exists s1 : Hybrid.state,
     Hybrid.iter identity 0.5 0.5 false 0.7071 1 1e-60 s0 [-1; 1]
     = (Ok (Next s1), [-1; 1; c'])) /\
  run (Hybrid.find_root identity (-1) 1 0.5 0.5 false 0.7071 1 1e-60
         (PyInt 1))
  = (Raise (NameError "AlgorithmFailure"), [-1; 1; c']).
Proof.
  cbv zeta. split; [vm_compute; reflexivity|]. split.
  - eexists. vm_compute. reflexivity.
  - vm_compute. reflexivity.
Qed.

(** * Further properties of the solvers *)

(** ** Sound bookkeeping *)

Lemma in_app_one {A : Type} (l : list A) (x y : A) :
  In x l -> In x (l ++ [y])%list.
Proof. intros H. apply in_or_app. left. exact H. Qed.

Lemma in_app_last {A : Type} (l : list A) (y : A) : In y (l ++ [y])%list.
Proof. apply in_or_app. right. left. reflexivity. Qed.

Lemma length_app_one {A : Type} (l : list A) (y : A) :
  Z.of_nat (List.length (l ++ [y])%list) = (Z.of_nat (List.length l) + 1)%Z.
Proof. rewrite List.length_app. cbn. lia. Qed.

(** Closes the goals of a soundness proof: equalities between stored
    values, the count of evaluations and memberships in a trace that grew
    by one or two points. *)
Ltac sound_goal :=
  repeat match goal with
  | |- _ /\ _ => split
  | |- forall _, _ => intro
  | H : Some _ = Some _ |- _ => inversion H; subst; clear H
  | |- In ?x (_ ++ [?x])%list => apply in_app_last
  | |- In _ (_ ++ [_])%list => apply in_app_one
  | |- context [Z.of_nat (List.length (_ ++ [_])%list)] =>
      rewrite length_app_one
  end;
  try solve [reflexivity | assumption | lia | congruence | auto].

Lemma bisection_iter_sound (f : float -> float) (ftol xtol : float)
    (both : bool) (max_steps : Z) (s s' : locals) (t t' : trace) :
  sound f s t ->
  Bisection.iter f ftol xtol both max_steps s t
    = (Ok (Bisection.Continue s'), t') ->
  sound f s' t' /\ t' = (t ++ [0.5 * (a s + b s)])%list.
Proof.
  intros (Hfa & Hfb & Hcalls & Ha & Hb & Hc).
  rewrite bisection_iter_cases.
  destruct (converged _ _ _ _ _ _); [discriminate|].
  destruct (steps s + 1 >? max_steps)%Z; [discriminate|].
  intros E. inversion E; subst. clear E.
  split; [|reflexivity].
  unfold sound, Bisection.update. cbn [set_calls set_c a b f_a f_b].
  destruct (_ <? _); cbn; sound_goal.
Qed.

(** ** The bisection solver as a whole *)

(** The loop, entered with [b] the point evaluated last: a returned point
    is the point evaluated last, and it met the convergence predicate
    against the point evaluated just before it. *)
Lemma bisection_loop_result (f : float -> float) (ftol xtol : float)
    (both : bool) (max_steps : Z) (fuel : nat) :
  forall (s : locals) (t t' : trace) (r : float),
    (exists t0 : trace, t = (t0 ++ [b s])%list) ->
    Bisection.loop fuel f ftol xtol both max_steps s t = (Ok r, t') ->
    exists (t0 : trace) (p : float),
      t' = (t0 ++ [p; r])%list /\
      converged both xtol ftol r p (f r) = true.
Proof.
  induction fuel as [|fuel IH]; intros s t t' r [t0 Ht] E; [discriminate|].
  cbn [Bisection.loop] in E. unfold bind at 1 in E.
  rewrite bisection_iter_cases in E.
  destruct (converged both xtol ftol (0.5 * (a s + b s)) (b s)
              (f (0.5 * (a s + b s)))) eqn:Hconv.
  - unfold ret in E. inversion E; subst. clear E.
    exists t0, (b s). split; [|exact Hconv].
    rewrite <- app_assoc. reflexivity.
  - destruct (steps s + 1 >? max_steps)%Z; [discriminate|].
    apply IH in E; [exact E|].
    exists t. unfold Bisection.update. cbn [set_calls set_c a b f_a f_b].
    destruct (_ <? _); reflexivity.
Qed.

(** The number of passes of the loop: one, and one more for every value
    of [steps] that stays within [max_steps]. *)
Lemma bisection_loop_length (f : float -> float) (ftol xtol : float)
    (both : bool) (max_steps : Z) (fuel : nat) :
  forall (s : locals) (t t' : trace) (r : outcome float),
    Bisection.loop fuel f ftol xtol both max_steps s t = (r, t') ->
    (List.length t' <=
     List.length t + Nat.max 1 (Z.to_nat (max_steps - steps s + 1)))%nat /\
    (r = Raise (NameError "AlgorithmFailure") ->
     List.length t' =
     (List.length t + Nat.max 1 (Z.to_nat (max_steps - steps s + 1)))%nat).
Proof.
  induction fuel as [|fuel IH]; intros s t t' r E.
  - cbn in E. unfold out_of_fuel in E. inversion E; subst.
    split; [lia|discriminate].
  - cbn [Bisection.loop] in E. unfold bind at 1 in E.
    rewrite bisection_iter_cases in E.
    destruct (converged _ _ _ _ _ _).
    + unfold ret in E. inversion E; subst. rewrite List.length_app.
      cbn [List.length]. split; [lia|discriminate].
    + destruct (Z.gtb_spec (steps s + 1) max_steps) as [Hgt|Hle].
      * inversion E; subst. rewrite List.length_app. cbn [List.length].
        split; lia.
      * apply IH in E. revert E.
        unfold Bisection.update. cbn [set_calls set_c a b f_a f_b].
        rewrite List.length_app.
        destruct (_ <? _); cbn [set_steps set_pair steps List.length];
          intros [Hlen Hlim];
          (split; [lia|intros Hr; specialize (Hlim Hr); lia]).
Qed.

(** When [find_root_bisection] returns, the value returned has been
    evaluated and meets the convergence predicate against its neighbour
    in the order of evaluation.  Either it is the point evaluated last,
    [r], and the predicate of the solver holds of [r], the point [p]
    evaluated just before it and [f(r)]: with [both],
    [|r - p| <= xtol] and [|f(r)| <= ftol], without it one of the two.
    Or it is the starting point [a], accepted before the loop with only
    [a] and [b] evaluated: then [|f(a)| <= ftol] and, with [both],
    [|b - a| <= xtol]. *)
Theorem bisection_result_meets_tolerances (f : float -> float)
    (x y : float) (ftol xtol : float) (both : bool) (max_steps : Z)
    (r : float) (t : trace) :
  run (Bisection.find_root_bisection f x y ftol xtol both max_steps)
    = (Ok r, t) ->
  (exists (t0 : trace) (p : float),
     t = (t0 ++ [p; r])%list /\
     converged both xtol ftol r p (f r) = true) \/
  (r = x /\ t = [x; y] /\
   (abs (f x) <=? ftol) = true /\
   (both = true -> (abs (y - x) <=? xtol) = true)).
Proof.
  unfold run, Bisection.find_root_bisection.
  destruct (xtol <=? 0.0); [discriminate|].
  destruct (ftol <=? 0.0); [discriminate|].
  cbv beta iota delta [bind call]. cbn [app].
  destruct (0.0 <? f x * f y); [discriminate|].
  destruct (Bisection.initial_return both ftol xtol x y (f x) (f y))
    as [v|] eqn:Hinit.
  - unfold ret. intros E. inversion E; subst. clear E.
    unfold Bisection.initial_return in Hinit.
    destruct both.
    + destruct (abs (y - x) <=? xtol) eqn:Hx; [|discriminate].
      destruct (abs (f x) <=? ftol) eqn:Ha.
      * inversion Hinit; subst. right. repeat split; auto.
      * destruct (abs (f y) <=? ftol) eqn:Hb; [|discriminate].
        inversion Hinit; subst. left. exists [], x.
        split; [reflexivity|]. unfold converged. rewrite Hx, Hb.
        reflexivity.
    + destruct (abs (f x) <=? ftol) eqn:Ha.
      * inversion Hinit; subst. right. repeat split; auto. discriminate.
      * destruct (abs (f y) <=? ftol) eqn:Hb; [|discriminate].
        inversion Hinit; subst. left. exists [], x.
        split; [reflexivity|]. unfold converged. rewrite Hb.
        apply orb_true_r.
  - intros E. left. apply bisection_loop_result in E; [exact E|].
    exists [x]. reflexivity.
Qed.

(** A call of [find_root_bisection] evaluates [f] at the two starting
    points and at one midpoint per pass of the loop; the loop makes at
    most [max_steps] passes, and one pass when [max_steps] is below 1. *)
Theorem bisection_evaluation_budget (f : float -> float) (x y : float)
    (ftol xtol : float) (both : bool) (max_steps : Z) (r : outcome float)
    (t : trace) :
  run (Bisection.find_root_bisection f x y ftol xtol both max_steps)
    = (r, t) ->
  (List.length t <= 2 + Nat.max 1 (Z.to_nat max_steps))%nat.
Proof.
  unfold run, Bisection.find_root_bisection.
  destruct (xtol <=? 0.0); [intros E; inversion E; cbn; lia|].
  destruct (ftol <=? 0.0); [intros E; inversion E; cbn; lia|].
  cbv beta iota delta [bind call]. cbn [app].
  destruct (0.0 <? f x * f y); [intros E; inversion E; cbn; lia|].
  destruct (Bisection.initial_return both ftol xtol x y (f x) (f y)).
  - intros E. inversion E. cbn. lia.
  - intros E. apply bisection_loop_length in E. destruct E as [Hlen _].
    cbn [steps List.length] in Hlen.
    replace (max_steps - 1 + 1)%Z with max_steps in Hlen by lia. lia.
Qed.

(** The ways in which [find_root_bisection] fails.  The two configuration
    errors are raised before any evaluation.  Every other failure is the
    [NameError] of the unbound [AlgorithmFailure]: at the [raise]
    statement of the bracket test, after the two starting evaluations and
    no other, when [f(a) * f(b) > 0]; or at that of the iteration limit,
    after exactly [max_steps] passes of the loop (one pass when
    [max_steps] is below 1).  The call raises nothing else. *)
Theorem bisection_failure_modes (f : float -> float) (x y : float)
    (ftol xtol : float) (both : bool) (max_steps : Z) (e : exn)
    (t : trace) :
  run (Bisection.find_root_bisection f x y ftol xtol both max_steps)
    = (Raise e, t) ->
  (e = ValueError msg_xtol [] /\ (xtol <=? 0) = true /\ t = []) \/
  (e = ValueError msg_ftol [] /\ (ftol <=? 0) = true /\ t = []) \/
  (e = NameError "AlgorithmFailure" /\
   (0 <? f x * f y) = true /\ t = [x; y]) \/
  (e = NameError "AlgorithmFailure" /\
   (0 <? f x * f y) = false /\
   List.length t = (2 + Nat.max 1 (Z.to_nat max_steps))%nat).
Proof.
  unfold run, Bisection.find_root_bisection.
  destruct (xtol <=? 0.0) eqn:Hx;
    [intros E; inversion E; left; repeat split; exact Hx|].
  destruct (ftol <=? 0.0) eqn:Hf;
    [intros E; inversion E; right; left; repeat split; exact Hf|].
  cbv beta iota delta [bind call]. cbn [app].
  destruct (0.0 <? f x * f y) eqn:Hpos;
    [intros E; inversion E; right; right; left; repeat split; exact Hpos|].
  destruct (Bisection.initial_return both ftol xtol x y (f x) (f y));
    [discriminate|].
  intros E. right. right. right.
  pose proof (bisection_loop_outcome _ _ _ _ _ _ _ _ _ _ E) as [_ He].
  specialize (He e eq_refl). subst e.
  split; [reflexivity|split; [reflexivity|]].
  apply bisection_loop_length in E. destruct E as [_ Hlim].
  specialize (Hlim eq_refl). cbn [steps List.length] in Hlim.
  replace (max_steps - 1 + 1)%Z with max_steps in Hlim by lia. exact Hlim.
Qed.

(** [f(x) = x] on the pair [(-1, 1)] with [xtol = 1]: the first midpoint
    [0] is returned, one unit from the point [1] evaluated before it. *)
Lemma bisection_result_meets_tolerances_witness :
  (exists (t0 : trace) (p : float),
     [-1; 1; 0] = (t0 ++ [p; 0])%list /\
     converged true 1 1e-6 0 p (identity 0) = true) \/
  (0 = -1 /\ [-1; 1; 0] = [-1; 1] /\
   (abs (identity (-1)) <=? 1e-6) = true /\
   (true = true -> (abs (1 - -1) <=? 1) = true)).
Proof.
  apply (bisection_result_meets_tolerances identity (-1) 1 1e-6 1 true 3000
           0 [-1; 1; 0]).
  vm_compute. reflexivity.
Defined.

Lemma bisection_evaluation_budget_witness :
  (List.length [-1; 2; 0.5; -0.25; 0.125]%float
   <= 2 + Nat.max 1 (Z.to_nat 3))%nat.
Proof.
  apply (bisection_evaluation_budget identity (-1) 2 1e-6 1e-6 true 3
           (Raise (NameError "AlgorithmFailure"))
           [-1; 2; 0.5; -0.25; 0.125]).
  vm_compute. reflexivity.
Defined.

(** [f(x) = x] on the pair [(-1, 2)] with [max_steps = 0]: one pass, and
    the iteration-limit [raise] ends in [NameError]. *)
Lemma bisection_failure_modes_witness :
  (NameError "AlgorithmFailure" = ValueError msg_xtol [] /\
   (1e-6 <=? 0) = true /\ [-1; 2; 0.5] = []) \/
  (NameError "AlgorithmFailure" = ValueError msg_ftol [] /\
   (1e-6 <=? 0) = true /\ [-1; 2; 0.5] = []) \/
  (NameError "AlgorithmFailure" = NameError "AlgorithmFailure" /\
   (0 <? identity (-1) * identity 2) = true /\ [-1; 2; 0.5] = [-1; 2]) \/
  (NameError "AlgorithmFailure" = NameError "AlgorithmFailure" /\
   (0 <? identity (-1) * identity 2) = false /\
   List.length [-1; 2; 0.5]%float = (2 + Nat.max 1 (Z.to_nat 0))%nat).
Proof.
  apply (bisection_failure_modes identity (-1) 2 1e-6 1e-6 true 0
           (NameError "AlgorithmFailure") [-1; 2; 0.5]).
  vm_compute. reflexivity.
Defined.

(** ** The loops of the secant and hybrid solvers *)

(** Closes the side goals on the length of a trace that grew by at most
    two points, and on membership in it. *)
Ltac trace_goal :=
  repeat match goal with
  | |- _ /\ _ => split
  | |- forall _, _ => intro
  | |- In _ (_ ++ [_])%list => apply in_app_one
  | |- context [List.length (_ ++ [_])%list] => rewrite List.length_app
  end;
  cbn [List.length]; try solve [assumption | lia].

Lemma secant_iter_facts (f : float -> float) (ftol xtol : float)
    (both : bool) (max_steps : Z) (min_slope : float) (s : locals)
    (t t' : trace) (r : outcome (flow locals)) :
  sound f s t ->
  Secant.iter f ftol xtol both max_steps min_slope s t = (r, t') ->
  ((List.length t <= List.length t' <= List.length t + 2)%nat /\
   forall x : float, In x t -> In x t') /\
  (forall e : exn, r = Raise e -> loop_exn e) /\
  (forall s' : locals, r = Ok (Next s') -> sound f s' t') /\
  (forall s' : locals, r = Ok (Break s') -> sound f s' t').
Proof.
  intros (Hfa & Hfb & Hcalls & Ha & Hb & Hc).
  unfold Secant.iter, slope_phase, new_point. step_cases;
    intros E; inversion E; subst; clear E;
    (split; [trace_goal|]);
    (split; [intros e He; inversion He; subst; unfold loop_exn; eauto 6|]);
    (split; intros s' Hs; inversion Hs; subst; unfold sound; cbn;
     sound_goal).
Qed.

Lemma hybrid_iter_facts (f : float -> float) (ftol xtol : float)
    (both : bool) (contraction_factor : float) (max_steps : Z)
    (min_slope : float) (s : Hybrid.state) (t t' : trace)
    (r : outcome (flow Hybrid.state)) :
  sound f (Hybrid.vars s) t ->
  Hybrid.iter f ftol xtol both contraction_factor max_steps min_slope s t
    = (r, t') ->
  ((List.length t <= List.length t' <= List.length t + 2)%nat /\
   forall x : float, In x t -> In x t') /\
  (forall e : exn, r = Raise e -> loop_exn e) /\
  (forall s' : Hybrid.state,
     r = Ok (Next s') -> sound f (Hybrid.vars s') t') /\
  (forall s' : Hybrid.state,
     r = Ok (Break s') -> sound f (Hybrid.vars s') t').
Proof.
  intros (Hfa & Hfb & Hcalls & Ha & Hb & Hc).
  unfold Hybrid.iter, Hybrid.count, Hybrid.bisection_step,
    Hybrid.regula_falsi_step, Hybrid.update, slope_phase, new_point.
  step_cases;
    intros E; inversion E; subst; clear E;
    (split; [trace_goal|]);
    (split; [intros e He; inversion He; subst; unfold loop_exn; eauto 6|]);
    (split; intros s' Hs; inversion Hs; subst; unfold sound; cbn;
     sound_goal).
Qed.

(** What leaves the loop of the secant solver, from sound bookkeeping: a
    point at which [f] has been evaluated, or one of the three exceptions
    of [loop_exn]; each pass evaluates [f] at most twice. *)
Lemma secant_loop_facts (f : float -> float) (ftol xtol : float)
    (both : bool) (max_steps : Z) (min_slope : float) (fuel : nat) :
  forall (s : locals) (t t' : trace) (r : outcome float),
    sound f s t ->
    Secant.loop fuel f ftol xtol both max_steps min_slope s t = (r, t') ->
    (List.length t' <=
     List.length t + 2 * Nat.max 1 (Z.to_nat (max_steps - steps s + 1)))%nat
    /\
    (forall e : exn, r = Raise e -> loop_exn e) /\
    (forall x : float, r = Ok x -> In x t').
Proof.
  induction fuel as [|fuel IH]; intros s t t' r Hsound E.
  - cbn in E. unfold out_of_fuel in E. inversion E; subst.
    split; [lia|]. split; discriminate.
  - cbn [Secant.loop] in E. unfold bind at 1 in E.
    destruct (Secant.iter f ftol xtol both max_steps min_slope s t)
      as [r1 t1] eqn:Hiter.
    pose proof (secant_iter_steps _ _ _ _ _ _ _ _ _ _ Hiter) as [_ Hsteps].
    destruct (secant_iter_facts _ _ _ _ _ _ _ _ _ _ Hsound Hiter)
      as ((Hlen & _) & Hexn & Hnext & Hbreak).
    destruct r1 as [[s1|s1]|e1|].
    + destruct (Hsteps s1 eq_refl) as [Hs1 Hle].
      destruct (IH s1 t1 t' r (Hnext s1 eq_refl) E) as (Hl & He & Hr).
      split; [lia|]. split; assumption.
    + specialize (Hbreak s1 eq_refl).
      destruct Hbreak as (_ & _ & _ & _ & _ & Hc).
      unfold value_of_c, ret, raise in E. destruct (c s1) as [x|].
      * inversion E; subst. split; [lia|]. split; [discriminate|].
        intros y Hy. inversion Hy; subst. apply Hc. reflexivity.
      * inversion E; subst. split; [lia|]. split; [|discriminate].
        intros e He. inversion He; subst. unfold loop_exn. auto.
    + inversion E; subst. split; [lia|]. split; [|discriminate].
      intros e He. inversion He; subst. apply Hexn. reflexivity.
    + inversion E; subst. split; [lia|]. split; discriminate.
Qed.

(** The same for the loop of the hybrid solver, which makes a pass only
    while [steps] is below [max_steps]. *)
Lemma hybrid_loop_facts (f : float -> float) (ftol xtol : float)
    (both : bool) (contraction_factor : float) (max_steps : Z)
    (min_slope : float) (fuel : nat) :
  forall (s : Hybrid.state) (t t' : trace) (r : outcome float),
    sound f (Hybrid.vars s) t ->
    Hybrid.loop fuel f ftol xtol both contraction_factor max_steps
      min_slope s t = (r, t') ->
    (List.length t' <=
     List.length t + 2 * Z.to_nat (max_steps - steps (Hybrid.vars s)))%nat
    /\
    (forall e : exn, r = Raise e -> loop_exn e) /\
    (forall x : float, r = Ok x -> In x t').
Proof.
  induction fuel as [|fuel IH]; intros s t t' r Hsound E.
  - cbn in E. unfold out_of_fuel in E. inversion E; subst.
    split; [lia|]. split; discriminate.
  - cbn [Hybrid.loop] in E. unfold bind at 1 in E.
    destruct (Hybrid.iter f ftol xtol both contraction_factor max_steps
                min_slope s t) as [r1 t1] eqn:Hiter.
    assert (Hguard : (steps (Hybrid.vars s) + 1 > max_steps)%Z -> t1 = t).
    { intros Hgt. revert Hiter. unfold Hybrid.iter. cbv zeta.
      cbn [Hybrid.count Hybrid.vars set_steps steps].
      destruct (Z.gtb_spec (steps (Hybrid.vars s) + 1) max_steps);
        [|lia].
      unfold raise_AlgorithmFailure, raise. intros Hiter. inversion Hiter.
      reflexivity. }
    pose proof (hybrid_iter_steps _ _ _ _ _ _ _ _ _ _ _ Hiter) as [_ Hsteps].
    destruct (hybrid_iter_facts _ _ _ _ _ _ _ _ _ _ _ Hsound Hiter)
      as ((Hlen & _) & Hexn & Hnext & Hbreak).
    assert (Hbound :
              (List.length t1 <=
               List.length t
               + 2 * Z.to_nat (max_steps - steps (Hybrid.vars s)))%nat).
    { destruct (Z_gt_le_dec (steps (Hybrid.vars s) + 1) max_steps)
        as [Hgt|Hle]; [rewrite (Hguard Hgt)|]; lia. }
    destruct r1 as [[s1|s1]|e1|].
    + destruct (Hsteps s1 eq_refl) as [Hs1 Hle].
      destruct (IH s1 t1 t' r (Hnext s1 eq_refl) E) as (Hl & He & Hr).
      split; [lia|]. split; assumption.
    + specialize (Hbreak s1 eq_refl).
      destruct Hbreak as (_ & _ & _ & _ & _ & Hc).
      unfold value_of_c, ret, raise in E.
      destruct (c (Hybrid.vars s1)) as [x|].
      * inversion E; subst. split; [lia|]. split; [discriminate|].
        intros y Hy. inversion Hy; subst. apply Hc. reflexivity.
      * inversion E; subst. split; [lia|]. split; [|discriminate].
        intros e He. inversion He; subst. unfold loop_exn. auto.
    + inversion E; subst. split; [lia|]. split; [|discriminate].
      intros e He. inversion He; subst. apply Hexn. reflexivity.
    + inversion E; subst. split; [lia|]. split; discriminate.
Qed.

(** The code before the loop, run on an empty trace: it refuses close
    starting points without [both] before any evaluation, accepts a
    starting point that it has evaluated, or enters the loop with sound
    bookkeeping after evaluating both. *)
Lemma start_facts (f : float -> float) (x y : float) (ftol xtol : float)
    (both : bool) (msg : string) (steps0 : Z) (r : outcome started)
    (t : trace) :
  start f x y ftol xtol both msg steps0 [] = (r, t) ->
  (List.length t <= 2)%nat /\
  (forall e : exn,
     r = Raise e ->
     e = ValueError msg [FReal xtol] /\ t = [] /\ both = false /\
     (abs (y - x) <=? xtol) = true) /\
  (forall v : float, r = Ok (Accept v) -> In v t) /\
  (forall s : locals,
     r = Ok (Enter s) ->
     sound f s t /\ steps s = steps0 /\ t = [x; y] /\
     pair_of s = (x, f x, y, f y)).
Proof.
  unfold start. step_cases; intros E; inversion E; subst; clear E;
    cbn [app List.length];
    (split; [lia|]);
    (split; [intros e He; inversion He; subst; auto|]);
    (split; [intros v Hv; inversion Hv; subst; cbn; auto|]);
    intros s Hs; inversion Hs; subst; unfold sound; cbn;
    repeat split; auto; discriminate.
Qed.

(** ** The secant solver as a whole *)

(** The ways in which [find_root_secant] fails: three configuration
    errors, each raised before any evaluation of [f]; and three exceptions
    of the interpreter, the [NameError] of the unbound [AlgorithmFailure],
    in which its iteration-limit and near-zero-slope [raise] statements
    end, [ZeroDivisionError] and [UnboundLocalError].  It raises nothing
    else. *)
Theorem secant_failure_modes (f : float -> float) (x y : float)
    (ftol xtol : float) (both : bool) (max_steps : Z) (min_slope : float)
    (e : exn) (t : trace) :
  run (Secant.find_root_secant f x y ftol xtol both max_steps min_slope)
    = (Raise e, t) ->
  (t = [] /\
   ((e = ValueError msg_xtol [] /\ (xtol <=? 0) = true) \/
    (e = ValueError msg_ftol [] /\ (ftol <=? 0) = true) \/
    (e = ValueError msg_initial [FReal xtol] /\ both = false /\
     (abs (y - x) <=? xtol) = true))) \/
  loop_exn e.
Proof.
  unfold run, Secant.find_root_secant.
  destruct (xtol <=? 0.0) eqn:Hx;
    [intros E; inversion E; left; split; [reflexivity|left; auto]|].
  destruct (ftol <=? 0.0) eqn:Hf;
    [intros E; inversion E; left; split; [reflexivity|right; left; auto]|].
  unfold bind at 1.
  destruct (start f x y ftol xtol both msg_initial 1 []) as [r0 t0] eqn:Hst.
  apply start_facts in Hst. destruct Hst as (_ & Hexn & _ & Henter).
  destruct r0 as [[v|s]|e0|]; try discriminate.
  - intros E.
    destruct (Henter s eq_refl) as (Hsound & _).
    apply (secant_loop_facts f ftol xtol both max_steps min_slope _ _ _ _ _
             Hsound) in E.
    destruct E as (_ & He & _). right. apply He. reflexivity.
  - intros E. inversion E; subst.
    destruct (Hexn e eq_refl) as (He & Ht & Hb & Hclose).
    left. split; [exact Ht|]. right. right. auto.
Qed.

(** The theorem at a constant function: both slopes are zero, the shifted
    [b] is more than [xtol] from [a], and the near-zero-slope [raise]
    ends in [NameError]. *)
Lemma secant_failure_modes_witness :
  loop_exn (NameError "AlgorithmFailure").
Proof.
  destruct (secant_failure_modes constant_five 0 1 1e-6 1e-6 true 3000
              1e-60 (NameError "AlgorithmFailure")
              [0; 1; 0.3679 * 0 + 0.6321 * 1])
    as [[Ht _]|H]; try discriminate Ht.
  - vm_compute. reflexivity.
  - exact H.
Defined.

(** When [find_root_secant] returns, the value returned is a point at
    which it has evaluated [f]; and a call evaluates [f] at most twice
    per pass of the loop, in at most [max_steps] passes (one pass when
    [max_steps] is below 1), after the two starting evaluations. *)
Theorem secant_result_and_budget (f : float -> float) (x y : float)
    (ftol xtol : float) (both : bool) (max_steps : Z) (min_slope : float)
    (r : outcome float) (t : trace) :
  run (Secant.find_root_secant f x y ftol xtol both max_steps min_slope)
    = (r, t) ->
  (forall v : float, r = Ok v -> In v t) /\
  (List.length t <= 2 + 2 * Nat.max 1 (Z.to_nat max_steps))%nat.
Proof.
  unfold run, Secant.find_root_secant.
  destruct (xtol <=? 0.0);
    [intros E; inversion E; split; [discriminate|cbn; lia]|].
  destruct (ftol <=? 0.0);
    [intros E; inversion E; split; [discriminate|cbn; lia]|].
  unfold bind at 1.
  destruct (start f x y ftol xtol both msg_initial 1 []) as [r0 t0] eqn:Hst.
  apply start_facts in Hst. destruct Hst as (Hlen & _ & Hacc & Henter).
  destruct r0 as [[v|s]|e0|].
  - unfold ret. intros E. inversion E; subst. split; [|lia].
    intros w Hw. inversion Hw; subst. apply Hacc. reflexivity.
  - intros E.
    destruct (Henter s eq_refl) as (Hsound & Hsteps & _).
    apply (secant_loop_facts f ftol xtol both max_steps min_slope _ _ _ _ _
             Hsound) in E.
    destruct E as (Hl & _ & Hr). split; [exact Hr|].
    rewrite Hsteps in Hl.
    replace (max_steps - 1 + 1)%Z with max_steps in Hl by lia. lia.
  - intros E. inversion E; subst. split; [discriminate|lia].
  - intros E. inversion E; subst. split; [discriminate|lia].
Qed.

(** The theorem at the run on [plateau] that leaves the loop through the
    degenerate-slope exit. *)
Lemma secant_result_and_budget_witness :
  In (-4) [0; 1; -4; 0.3679 * 1 + 0.6321 * -4] /\
  (List.length [0; 1; -4; 0.3679 * 1 + 0.6321 * -4]%float
   <= 2 + 2 * Nat.max 1 (Z.to_nat 3000))%nat.
Proof.
  destruct (secant_result_and_budget plateau 0 1 1 10 true 3000 1e-60
              (Ok (-4)) [0; 1; -4; 0.3679 * 1 + 0.6321 * -4])
    as [Hin Hlen].
  - vm_compute. reflexivity.
  - split; [apply Hin; reflexivity|exact Hlen].
Defined.

(** ** The hybrid solver as a whole *)

(** The ways in which [find_root] fails: five configuration errors, each
    raised before any evaluation of [f]; and three exceptions of the
    interpreter.  The [NameError] of the unbound [AlgorithmFailure] is
    what its three [raise AlgorithmFailure] statements end in: that of
    the bracket test of [use_bisection > 0], after the two starting
    evaluations and no other, and those of the iteration limit and of the
    near-zero slope in the loop.  The loop also raises
    [ZeroDivisionError] and [UnboundLocalError].  The call raises nothing
    else. *)
Theorem hybrid_failure_modes (f : float -> float) (x y : float)
    (ftol xtol : float) (both : bool) (contraction_factor : float)
    (max_steps : Z) (min_slope : float) (use_bisection : pyarg) (e : exn)
    (t : trace) :
  run (Hybrid.find_root f x y ftol xtol both contraction_factor max_steps
         min_slope use_bisection)
    = (Raise e, t) ->
  (t = [] /\
   ((e = ValueError msg_xtol [] /\ (xtol <=? 0) = true) \/
    (e = ValueError msg_ftol [] /\ (ftol <=? 0) = true) \/
    (e = ValueError msg_contraction [] /\
     (0.5 <=? contraction_factor) && (contraction_factor <=? 1) = false) \/
    (e = ValueError msg_use_bisection [] /\
     forall n : Z, use_bisection = PyInt n -> (n < 0)%Z) \/
    (e = ValueError msg_starting [FReal xtol] /\ both = false /\
     (abs (y - x) <=? xtol) = true))) \/
  (e = NameError "AlgorithmFailure" /\ t = [x; y] /\
   (0 <? f x * f y) = true /\
   exists n : Z, use_bisection = PyInt n /\ (0 < n)%Z) \/
  loop_exn e.
Proof.
  unfold run, Hybrid.find_root.
  destruct (xtol <=? 0.0) eqn:Hx;
    [intros E; inversion E; left; split; [reflexivity|left; auto]|].
  destruct (ftol <=? 0.0) eqn:Hf;
    [intros E; inversion E; left; split; [reflexivity|right; left; auto]|].
  destruct ((0.5 <=? contraction_factor) && (contraction_factor <=? 1.0))
    eqn:Hcf; cbn [negb];
    [|intros E; inversion E; left; split;
      [reflexivity|right; right; left; auto]].
  destruct use_bisection as [n|];
    [|intros E; inversion E; left; split; [reflexivity|];
      right; right; right; left; split; [reflexivity|];
      intros n Hn; discriminate].
  destruct (Z.ltb_spec n 0) as [Hneg|Hnn];
    [intros E; inversion E; left; split; [reflexivity|];
     right; right; right; left; split; [reflexivity|];
     intros m Hm; inversion Hm; subst; exact Hneg|].
  unfold bind at 1.
  destruct (start f x y ftol xtol both msg_starting 0 []) as [r0 t0] eqn:Hst.
  apply start_facts in Hst. destruct Hst as (_ & Hexn & _ & Henter).
  destruct r0 as [[v|s]|e0|]; try discriminate.
  - destruct (Henter s eq_refl) as (Hsound & _ & Ht & Hpair).
    unfold pair_of in Hpair. injection Hpair as Ha Hfa Hb Hfb.
    destruct (Z.eqb_spec n 0) as [Hz|Hnz]; cbn [negb andb].
    + intros E.
      apply (hybrid_loop_facts f ftol xtol both contraction_factor
               max_steps min_slope _ (Hybrid.State s n) _ _ _ Hsound) in E.
      destruct E as (_ & He & _). right. right. apply He. reflexivity.
    + destruct (0.0 <? f_a s * f_b s) eqn:Hpos.
      * intros E. inversion E; subst. right. left.
        split; [reflexivity|]. split; [reflexivity|].
        split; [rewrite <- Hfa, <- Hfb; exact Hpos|].
        exists n. split; [reflexivity|lia].
      * intros E.
        apply (hybrid_loop_facts f ftol xtol both contraction_factor
                 max_steps min_slope _ (Hybrid.State s n) _ _ _ Hsound)
          in E.
        destruct E as (_ & He & _). right. right. apply He. reflexivity.
  - intros E. inversion E; subst.
    destruct (Hexn e eq_refl) as (He & Ht & Hb & Hclose).
    left. split; [exact Ht|]. right. right. right. right. auto.
Qed.

(** The theorem at a constant function with one initial bisection step:
    the product of the two starting values is positive, and the [raise]
    of the bracket test ends in [NameError]. *)
Lemma hybrid_failure_modes_witness :
  (NameError "AlgorithmFailure" = NameError "AlgorithmFailure" /\
   [0; 1] = [0; 1] /\
   (0 <? constant_five 0 * constant_five 1) = true /\
   exists n : Z, PyInt 1 = PyInt n /\ (0 < n)%Z) \/
  loop_exn (NameError "AlgorithmFailure").
Proof.
  destruct (hybrid_failure_modes constant_five 0 1 1e-6 1e-6 true 0.7071
              3000 1e-60 (PyInt 1) (NameError "AlgorithmFailure") [0; 1])
    as [[Ht _]|H]; try discriminate Ht.
  - vm_compute. reflexivity.
  - exact H.
Defined.

(** When [find_root] returns, the value returned is a point at which it
    has evaluated [f]; and a call evaluates [f] at most twice per pass of
    the loop, in at most [max_steps] passes, after the two starting
    evaluations: with [max_steps] below 1 no pass is made. *)
Theorem hybrid_result_and_budget (f : float -> float) (x y : float)
    (ftol xtol : float) (both : bool) (contraction_factor : float)
    (max_steps : Z) (min_slope : float) (use_bisection : pyarg)
    (r : outcome float) (t : trace) :
  run (Hybrid.find_root f x y ftol xtol both contraction_factor max_steps
         min_slope use_bisection)
    = (r, t) ->
  (forall v : float, r = Ok v -> In v t) /\
  (List.length t <= 2 + 2 * Z.to_nat max_steps)%nat.
Proof.
  unfold run, Hybrid.find_root.
  destruct (xtol <=? 0.0);
    [intros E; inversion E; split; [discriminate|cbn; lia]|].
  destruct (ftol <=? 0.0);
    [intros E; inversion E; split; [discriminate|cbn; lia]|].
  destruct (negb _);
    [intros E; inversion E; split; [discriminate|cbn; lia]|].
  destruct use_bisection as [n|];
    [|intros E; inversion E; split; [discriminate|cbn; lia]].
  destruct (n <? 0)%Z;
    [intros E; inversion E; split; [discriminate|cbn; lia]|].
  unfold bind at 1.
  destruct (start f x y ftol xtol both msg_starting 0 []) as [r0 t0] eqn:Hst.
  apply start_facts in Hst. destruct Hst as (Hlen & _ & Hacc & Henter).
  destruct r0 as [[v|s]|e0|].
  - unfold ret. intros E. inversion E; subst. split; [|lia].
    intros w Hw. inversion Hw; subst. apply Hacc. reflexivity.
  - destruct (Henter s eq_refl) as (Hsound & Hsteps & _).
    destruct (negb (n =? 0)%Z && (0.0 <? f_a s * f_b s)).
    + intros E. inversion E; subst. split; [discriminate|lia].
    + intros E.
      apply (hybrid_loop_facts f ftol xtol both contraction_factor
               max_steps min_slope _ (Hybrid.State s n) _ _ _ Hsound) in E.
      destruct E as (Hl & _ & Hr). split; [exact Hr|].
      cbn [Hybrid.vars] in Hl. rewrite Hsteps in Hl.
      replace (max_steps - 0)%Z with max_steps in Hl by lia. lia.
  - intros E. inversion E; subst. split; [discriminate|lia].
  - intros E. inversion E; subst. split; [discriminate|lia].
Qed.

(** The theorem at the run of claim C3's example, which returns the
    root. *)
Lemma hybrid_result_and_budget_witness :
  In 0 [-1; 1; 0; 0.5; 0.25; 0; 0] /\
  (List.length [-1; 1; 0; 0.5; 0.25; 0; 0]%float
   <= 2 + 2 * Z.to_nat 3000)%nat.
Proof.
  destruct (hybrid_result_and_budget identity (-1) 1 1e-6 1e-6 true 0.7071
              3000 1e-60 (PyInt 3) (Ok 0) [-1; 1; 0; 0.5; 0.25; 0; 0])
    as [Hin Hlen].
  - vm_compute. reflexivity.
  - split; [apply Hin; reflexivity|exact Hlen].
Defined.

(** ** Coincident starting points *)

(** With [both] set, starting points whose difference is zero and whose
    values are not within [ftol] make the secant solver, and the hybrid
    solver called without initial bisection steps, divide by zero in the
    first slope: the call ends in [ZeroDivisionError] after the two
    starting evaluations. *)
Theorem coincident_points_zero_division (f : float -> float) (x y : float)
    (ftol xtol : float) (contraction_factor : float) (max_steps : Z)
    (min_slope : float) :
  (0 <? xtol) = true ->
  (0 <? ftol) = true ->
  (y - x =? 0) = true ->
  (abs (f x) <=? ftol) = false ->
  (abs (f y) <=? ftol) = false ->
  run (Secant.find_root_secant f x y ftol xtol true max_steps min_slope)
    = (Raise ZeroDivisionError, [x; y]) /\
  ((0.5 <=? contraction_factor) = true ->
   (contraction_factor <=? 1) = true ->
   (1 <= max_steps)%Z ->
   run (Hybrid.find_root f x y ftol xtol true contraction_factor max_steps
          min_slope (PyInt 0))
     = (Raise ZeroDivisionError, [x; y])).
Proof.
  intros Hx Hf Hzero Ha Hb.
  assert (Hstart : forall (msg : string) (k : Z),
            start f x y ftol xtol true msg k []
            = (Ok (Enter (Locals x (f x) y (f y) None k 2)), [x; y])).
  { intros msg k. unfold start, bind, call, ret. cbn [app].
    rewrite Ha, Hb. destruct (abs (y - x) <=? xtol); reflexivity. }
  split.
  - unfold run, Secant.find_root_secant.
    rewrite (positive_not_le_zero _ Hx), (positive_not_le_zero _ Hf).
    unfold bind at 1. rewrite Hstart.
    cbn [Secant.loop]. unfold bind at 1.
    unfold Secant.iter, slope_phase, bind, div, raise_AlgorithmFailure,
      raise.
    cbn [a b f_a f_b]. rewrite Hzero. reflexivity.
  - intros Hlo Hhi Hmax.
    unfold run, Hybrid.find_root.
    rewrite (positive_not_le_zero _ Hx), (positive_not_le_zero _ Hf).
    rewrite Hlo, Hhi. cbn [andb negb].
    change (0 <? 0)%Z with false. cbv iota.
    unfold bind at 1. rewrite Hstart.
    change (0 =? 0)%Z with true. cbn [negb andb].
    cbn [Hybrid.loop]. unfold bind at 1.
    rewrite hybrid_iter_dispatch by (cbn; lia).
    cbn [Hybrid.use_bisection]. change (0 =? 0)%Z with true. cbv iota.
    unfold Hybrid.regula_falsi_step, slope_phase, bind, div,
      raise_AlgorithmFailure, raise.
    cbn [Hybrid.count Hybrid.vars set_steps a b f_a f_b].
    rewrite Hzero. reflexivity.
Qed.

(** The theorem at [a = b = 1] on a constant function. *)
Lemma coincident_points_zero_division_witness :
  run (Secant.find_root_secant constant_five 1 1 1e-6 1e-6 true 3000 1e-60)
    = (Raise ZeroDivisionError, [1; 1]) /\
  run (Hybrid.find_root constant_five 1 1 1e-6 1e-6 true 0.7071 3000 1e-60
         (PyInt 0))
    = (Raise ZeroDivisionError, [1; 1]).
Proof.
  destruct (coincident_points_zero_division constant_five 1 1 1e-6 1e-6
              0.7071 3000 1e-60) as [Hsec Hhyb]; try reflexivity.
  split; [exact Hsec|]. apply Hhyb; try reflexivity. lia.
Defined.

(** ** The bisection countdown of the hybrid solver *)

(** A bisection pass within the iteration limit, whatever the midpoint:
    one evaluation, the countdown one lower, [steps] one higher. *)
Lemma hybrid_bisection_pass (f : float -> float) (ftol xtol : float)
    (both : bool) (contraction_factor : float) (max_steps : Z)
    (min_slope : float) (s : Hybrid.state) (t : trace) :
  Hybrid.use_bisection s <> 0%Z ->
  (steps (Hybrid.vars s) + 1 <= max_steps)%Z ->
  exists s' : Hybrid.state,
    Hybrid.iter f ftol xtol both contraction_factor max_steps min_slope s t
      = (Ok (Next s'),
         (t ++ [0.5 * (a (Hybrid.vars s) + b (Hybrid.vars s))])%list) /\
    Hybrid.use_bisection s' = (Hybrid.use_bisection s - 1)%Z /\
    steps (Hybrid.vars s') = (steps (Hybrid.vars s) + 1)%Z.
Proof.
  intros Hub Hguard.
  rewrite hybrid_iter_dispatch by assumption.
  destruct (Z.eqb_spec (Hybrid.use_bisection s) 0) as [E|_]; [contradiction|].
  unfold Hybrid.bisection_step, bind, call, ret.
  cbn [Hybrid.count Hybrid.vars Hybrid.use_bisection set_steps set_calls
       set_c a b f_a f_b calls steps].
  eexists. split; [reflexivity|]. split; [reflexivity|].
  destruct (_ <? _); reflexivity.
Qed.

(** The hybrid solver really begins with the bisection steps it is asked
    for: from a countdown of [n], and with [n] passes left before the
    iteration limit, the first [n] passes of the loop are bisection
    passes; they evaluate [f] exactly [n] times, none of them leaves the
    loop, and they bring the countdown to zero. *)
Theorem hybrid_initial_bisection_phase (f : float -> float)
    (ftol xtol : float) (both : bool) (contraction_factor : float)
    (max_steps : Z) (min_slope : float) (n : nat) :
  forall (s : Hybrid.state) (t : trace),
    Hybrid.use_bisection s = Z.of_nat n ->
    (steps (Hybrid.vars s) + Z.of_nat n <= max_steps)%Z ->
    exists (s' : Hybrid.state) (t' : trace),
      hybrid_passes n f ftol xtol both contraction_factor max_steps
        min_slope s t = (Ok (Next s'), t') /\
      Hybrid.use_bisection s' = 0%Z /\
      steps (Hybrid.vars s') = (steps (Hybrid.vars s) + Z.of_nat n)%Z /\
      List.length t' = (List.length t + n)%nat /\
      forall fuel : nat,
        Hybrid.loop (n + fuel) f ftol xtol both contraction_factor
          max_steps min_slope s t
        = Hybrid.loop fuel f ftol xtol both contraction_factor max_steps
            min_slope s' t'.
Proof.
  induction n as [|n IH]; intros s t Hub Hguard.
  - exists s, t. cbn. repeat split; auto. lia.
  - destruct (hybrid_bisection_pass f ftol xtol both contraction_factor
                max_steps min_slope s t) as (s1 & Hiter & Hub1 & Hsteps1);
      [lia|lia|].
    destruct (IH s1 (t ++ [0.5 * (a (Hybrid.vars s) + b (Hybrid.vars s))])%list)
      as (s' & t' & Hpasses & Hzero & Hsteps & Hlen & Hloop);
      [lia|lia|].
    exists s', t'. split; [|split; [|split; [|split]]].
    + cbn [hybrid_passes]. rewrite Hiter. exact Hpasses.
    + exact Hzero.
    + lia.
    + rewrite Hlen, List.length_app. cbn [List.length]. lia.
    + intros fuel. cbn [Nat.add Hybrid.loop]. unfold bind at 1.
      rewrite Hiter. apply Hloop.
Qed.

(** The theorem at the state in which the call of claim C3's example
    enters the loop, with a countdown of 3. *)
Lemma hybrid_initial_bisection_phase_witness :
  exists (s' : Hybrid.state) (t' : trace),
    hybrid_passes 3 identity 1e-6 1e-6 true 0.7071 3000 1e-60
      (Hybrid.State (Locals (-1) (-1) 1 1 None 0 2) 3) [-1; 1]
    = (Ok (Next s'), t') /\
    Hybrid.use_bisection s' = 0%Z /\
    List.length t' = 5%nat.
Proof.
  destruct (hybrid_initial_bisection_phase identity 1e-6 1e-6 true 0.7071
              3000 1e-60 3
              (Hybrid.State (Locals (-1) (-1) 1 1 None 0 2) 3) [-1; 1])
    as (s' & t' & Hpasses & Hzero & _ & Hlen & _).
  - reflexivity.
  - cbn. lia.
  - exists s', t'. split; [exact Hpasses|]. split; [exact Hzero|exact Hlen].
Defined.

(** The countdown is never negative, and after a Regula Falsi pass it is
    0 or 1: a pass that goes on leaves it one lower when it was positive,
    and at 0 or 1 when it was 0. *)
Theorem hybrid_countdown_bounds (f : float -> float) (ftol xtol : float)
    (both : bool) (contraction_factor : float) (max_steps : Z)
    (min_slope : float) (s s' : Hybrid.state) (t t' : trace) :
  (0 <= Hybrid.use_bisection s)%Z ->
  Hybrid.iter f ftol xtol both contraction_factor max_steps min_slope s t
    = (Ok (Next s'), t') ->
  (0 < Hybrid.use_bisection s ->
   Hybrid.use_bisection s' = Hybrid.use_bisection s - 1)%Z /\
  (Hybrid.use_bisection s = 0 ->
   Hybrid.use_bisection s' = 0 \/ Hybrid.use_bisection s' = 1)%Z.
Proof.
  intros Hub.
  unfold Hybrid.iter, Hybrid.count, Hybrid.bisection_step,
    Hybrid.regula_falsi_step, Hybrid.update, slope_phase, new_point.
  cbn [Hybrid.use_bisection Hybrid.vars].
  destruct (Z.eqb_spec (Hybrid.use_bisection s) 0) as [Hz|Hnz];
    cbn [negb]; step_cases;
    intros E; inversion E; subst; clear E;
    cbn [Hybrid.use_bisection]; split; intros; try lia; auto.
Qed.

(** The theorem at the Regula Falsi pass of claim C1's example, which
    sets the countdown to 1. *)
Lemma hybrid_countdown_bounds_witness :
  exists (s' : Hybrid.state) (t' : trace),
    Hybrid.iter identity 1e-6 1e-6 true 0.7071 3000 1e-60
      (Hybrid.State (Locals (-3) (-3) 1 1 None 0 2) 0) [-3; 1]
    = (Ok (Next s'), t') /\
    (Hybrid.use_bisection s' = 0%Z \/ Hybrid.use_bisection s' = 1%Z).
Proof.
  eexists. eexists. split; [vm_compute; reflexivity|].
  eapply (hybrid_countdown_bounds identity 1e-6 1e-6 true 0.7071 3000
            1e-60 (Hybrid.State (Locals (-3) (-3) 1 1 None 0 2) 0) _
            [-3; 1] _).
  - cbn. lia.
  - vm_compute. reflexivity.
  - reflexivity.
Defined.

(** ** The loop of the Regula Falsi solver *)

(** A pass of the Regula Falsi loop on a bracketing pair whose chord root
    [c] is not strictly inside the pair, with the slope accepted and [c]
    not meeting the convergence test: the pass evaluates [f] at [c] and
    goes on with the same pair. *)
Lemma regula_falsi_stalled_pass (f : float -> float) (ftol xtol : float)
    (both : bool) (max_steps : Z) (min_slope : float) (s : locals)
    (t : trace) :
  let slope := (f_b s - f_a s) / (b s - a s) in
  let c' := b s - f_b s / slope in
  (b s - a s =? 0) = false ->
  (abs slope <? min_slope) = false ->
  (slope =? 0) = false ->
  converged both xtol ftol c' (b s) (f c') = false ->
  (f_a s * f_b s <? 0) = true ->
  (py_min (a s) (b s) <? c') && (c' <? py_max (a s) (b s)) = false ->
  (steps s + 1 <= max_steps)%Z ->
  exists s' : locals,
    RegulaFalsi.iter f ftol xtol both max_steps min_slope s t
      = (Ok (Next s'), (t ++ [c'])%list) /\
    pair_of s' = pair_of s /\
    steps s' = (steps s + 1)%Z.
Proof.
  intros slope c' Hd Hs Hnz Hconv Hbr Hout Hguard.
  assert (Hphase : slope_phase f xtol min_slope (set_steps s (steps s + 1)) t
                   = (Ok (Sloped (set_steps s (steps s + 1)) slope), t)).
  { unfold slope_phase, bind, div, ret. cbn [set_steps a b f_a f_b].
    rewrite Hd. fold slope. rewrite Hs. reflexivity. }
  rewrite (regula_falsi_iter_point f ftol xtol both max_steps min_slope s t
             t _ slope Hguard Hphase Hnz).
  cbn [set_steps a b f_a f_b]. fold c'. rewrite Hconv.
  unfold RegulaFalsi.update. cbn [set_calls set_c set_steps a b f_a f_b].
  rewrite Hbr, Hout. cbn [negb].
  eexists. split; [reflexivity|]. split; reflexivity.
Qed.

(** The Regula Falsi loop makes no progress from such a pair: every pass
    recomputes the same point and leaves the pair as it is, so the loop
    never returns: it ends at the [raise] statement of the iteration
    limit, in the [NameError] of the unbound [AlgorithmFailure], having
    evaluated [f] at that one point once per pass left. *)
Theorem regula_falsi_stalls (f : float -> float) (ftol xtol : float)
    (both : bool) (max_steps : Z) (min_slope : float)
    (a0 fa0 b0 fb0 : float) :
  let slope := (fb0 - fa0) / (b0 - a0) in
  let c' := b0 - fb0 / slope in
  (b0 - a0 =? 0) = false ->
  (abs slope <? min_slope) = false ->
  (slope =? 0) = false ->
  converged both xtol ftol c' b0 (f c') = false ->
  (fa0 * fb0 <? 0) = true ->
  (py_min a0 b0 <? c') && (c' <? py_max a0 b0) = false ->
  forall (fuel : nat) (s : locals) (t : trace),
    pair_of s = (a0, fa0, b0, fb0) ->
    (Z.to_nat (max_steps - steps s) < fuel)%nat ->
    RegulaFalsi.loop fuel f ftol xtol both max_steps min_slope s t
    = (Raise (NameError "AlgorithmFailure"),
       (t ++ repeat c' (Z.to_nat (max_steps - steps s)))%list).
Proof.
  intros slope c' Hd Hs Hnz Hconv Hbr Hout.
  induction fuel as [|fuel IH]; intros s t Hpair Hfuel; [lia|].
  unfold pair_of in Hpair. injection Hpair as Ha Hfa Hb Hfb.
  cbn [RegulaFalsi.loop]. unfold bind at 1.
  destruct (Z_gt_le_dec (steps s + 1) max_steps) as [Hgt|Hle].
  - unfold RegulaFalsi.iter. cbv zeta. cbn [set_steps steps].
    destruct (Z.gtb_spec (steps s + 1) max_steps) as [_|Hle]; [|lia].
    unfold raise_AlgorithmFailure, raise.
    replace (Z.to_nat (max_steps - steps s)) with 0%nat by lia.
    cbn [repeat]. rewrite app_nil_r. reflexivity.
  - destruct (regula_falsi_stalled_pass f ftol xtol both max_steps
                min_slope s t) as (s1 & Hiter & Hpair1 & Hsteps1);
      try (rewrite ?Ha, ?Hfa, ?Hb, ?Hfb; assumption).
    rewrite Hiter. cbv iota beta.
    rewrite Ha, Hfa, Hb, Hfb. fold slope. fold c'.
    rewrite IH.
    + rewrite Hsteps1.
      replace (Z.to_nat (max_steps - steps s))
        with (S (Z.to_nat (max_steps - (steps s + 1)))) by lia.
      cbn [repeat]. rewrite <- app_assoc. reflexivity.
    + rewrite Hpair1. unfold pair_of. rewrite Ha, Hfa, Hb, Hfb. reflexivity.
    + lia.
Qed.

(** The theorem at the two neighbouring floats of claim C6's example,
    with five passes allowed: [f] is evaluated five times at the same
    point. *)
Lemma regula_falsi_stalls_witness :
  RegulaFalsi.loop 6 sign_step 1e-6 1e-6 true 5 1e-60
    (Locals 1 (-1) 1.0000000000000002 1 None 0 2) [1; 1.0000000000000002]
  = (Raise (NameError "AlgorithmFailure"),
     [1; 1.0000000000000002; 1; 1; 1; 1; 1]).
Proof.
  apply (regula_falsi_stalls sign_step 1e-6 1e-6 true 5 1e-60
           1 (-1) 1.0000000000000002 1);
    try reflexivity.
  cbn. lia.
Defined.

(** ** Bookkeeping of the loops *)

(** Every pass that goes on, in the bisection, the secant and the hybrid
    loop, keeps the bookkeeping sound: [f_a] and [f_b] are the values of
    [f] at [a] and [b], [calls] is the number of evaluations made so far,
    and [a], [b] and the point bound to [c] are points at which [f] has
    been evaluated.  The code before the loop establishes it. *)
Theorem loop_bookkeeping_sound (f : float -> float) (ftol xtol : float)
    (both : bool) (contraction_factor : float) (max_steps : Z)
    (min_slope : float) :
  (forall (x y : float) (msg : string) (k : Z) (s : locals) (t : trace),
     start f x y ftol xtol both msg k [] = (Ok (Enter s), t) ->
     sound f s t) /\
  (forall (s s' : locals) (t t' : trace),
     sound f s t ->
     Bisection.iter f ftol xtol both max_steps s t
       = (Ok (Bisection.Continue s'), t') ->
     sound f s' t') /\
  (forall (s s' : locals) (t t' : trace),
     sound f s t ->
     Secant.iter f ftol xtol both max_steps min_slope s t
       = (Ok (Next s'), t') ->
     sound f s' t') /\
  (forall (s s' : Hybrid.state) (t t' : trace),
     sound f (Hybrid.vars s) t ->
     Hybrid.iter f ftol xtol both contraction_factor max_steps min_slope
       s t = (Ok (Next s'), t') ->
     sound f (Hybrid.vars s') t').
Proof.
  split; [|split; [|split]].
  - intros x y msg k s t Hstart.
    apply start_facts in Hstart. destruct Hstart as (_ & _ & _ & Henter).
    destruct (Henter s eq_refl) as [Hsound _]. exact Hsound.
  - intros s s' t t' Hsound Hiter.
    destruct (bisection_iter_sound f ftol xtol both max_steps s s' t t'
                Hsound Hiter) as [H _]. exact H.
  - intros s s' t t' Hsound Hiter.
    destruct (secant_iter_facts f ftol xtol both max_steps min_slope s t t'
                _ Hsound Hiter) as (_ & _ & Hnext & _).
    apply Hnext. reflexivity.
  - intros s s' t t' Hsound Hiter.
    destruct (hybrid_iter_facts f ftol xtol both contraction_factor
                max_steps min_slope s t t' _ Hsound Hiter)
      as (_ & _ & Hnext & _).
    apply Hnext. reflexivity.
Qed.

(** The theorem at the first pass of the hybrid loop in claim C1's
    example. *)
Lemma loop_bookkeeping_sound_witness :
  exists (s' : Hybrid.state) (t' : trace),
    Hybrid.iter identity 1e-6 1e-6 true 0.7071 3000 1e-60
      (Hybrid.State (Locals (-3) (-3) 1 1 None 0 2) 0) [-3; 1]
    = (Ok (Next s'), t') /\
    sound identity (Hybrid.vars s') t'.
Proof.
  eexists. eexists. split; [vm_compute; reflexivity|].
  destruct (loop_bookkeeping_sound identity 1e-6 1e-6 true 0.7071 3000
              1e-60) as (_ & _ & _ & Hhyb).
  eapply (Hhyb (Hybrid.State (Locals (-3) (-3) 1 1 None 0 2) 0) _
            [-3; 1] _).
  - unfold sound. cbn. repeat split; auto. discriminate.
  - vm_compute. reflexivity.
Defined.

(** ** A tolerance that is not a number *)

Lemma leb_nan (x : float) : (x <=? nan) = false.
Proof.
  rewrite leb_spec. change (Prim2SF nan) with S754_nan.
  destruct (Prim2SF x); reflexivity.
Qed.

(** The validation [xtol <= 0.0] lets NaN through, and with [both] set a
    NaN [xtol] can never be met: such a call of [find_root_bisection]
    never returns a value.  It ends in the [ValueError] for [ftol], or at
    the [raise] statement of the bracket test or of the iteration limit,
    in the [NameError] of the unbound [AlgorithmFailure]. *)
Theorem bisection_nan_xtol_never_returns (f : float -> float) (x y : float)
    (ftol : float) (max_steps : Z) :
  exists (e : exn) (t : trace),
    run (Bisection.find_root_bisection f x y ftol nan true max_steps)
      = (Raise e, t) /\
    (e = ValueError msg_ftol [] \/ e = NameError "AlgorithmFailure").
Proof.
  assert (Hloop : forall (fuel : nat) (s : locals) (t : trace),
            (Z.to_nat (max_steps - steps s) < fuel)%nat ->
            exists t' : trace,
              Bisection.loop fuel f ftol nan true max_steps s t
              = (Raise (NameError "AlgorithmFailure"), t')).
  { induction fuel as [|fuel IH]; intros s t Hfuel; [lia|].
    cbn [Bisection.loop]. unfold bind at 1.
    rewrite bisection_iter_cases. unfold converged. rewrite leb_nan.
    cbn [andb].
    destruct (Z.gtb_spec (steps s + 1) max_steps) as [Hgt|Hle].
    - eexists. reflexivity.
    - apply IH. unfold Bisection.update.
      destruct (_ <? _); cbn; lia. }
  unfold run, Bisection.find_root_bisection.
  change (nan <=? 0.0) with false. cbv iota.
  destruct (ftol <=? 0.0); [eexists; eexists; split; [reflexivity|auto]|].
  cbv beta iota delta [bind call]. cbn [app].
  destruct (0.0 <? f x * f y);
    [eexists; eexists; split; [reflexivity|auto]|].
  unfold Bisection.initial_return. rewrite leb_nan.
  destruct (Hloop (S (Z.to_nat max_steps)) (Locals x (f x) y (f y) None 1 2)
              [x; y]) as [t' Ht']; [cbn; lia|].
  exists (NameError "AlgorithmFailure"), t'.
  split; [exact Ht'|auto].
Qed.

(** ** The hybrid solver against the secant and Regula Falsi solvers *)

(** The slope phase reads [steps] only for the message of its [raise]
    statement: when it succeeds, counting the pass first changes nothing
    but [steps]. *)
Lemma slope_phase_counted (f : float -> float) (xtol min_slope : float)
    (s : locals) (t t1 : trace) (v : locals) (slope : float) (k : Z) :
  slope_phase f xtol min_slope s t = (Ok (Sloped v slope), t1) ->
  slope_phase f xtol min_slope (set_steps s k) t
  = (Ok (Sloped (set_steps v k) slope), t1).
Proof.
  unfold slope_phase, bind, div, call, ret, raise_AlgorithmFailure, raise.
  cbn [set_steps set_calls set_pair a b f_a f_b calls steps].
  repeat match goal with
  | |- context [if ?x then _ else _] => destruct x
  end;
    intros E; inversion E; subst; reflexivity.
Qed.

(** On a pair that does not bracket a root, a Regula Falsi pass of the
    hybrid solver is a pass of the secant solver: from the same locals
    both generate the same point with the same evaluations and, when it
    does not meet the convergence test, go on with the same pair, the old
    [b] and the new point. *)
Theorem hybrid_pass_is_secant_pass (f : float -> float) (ftol xtol : float)
    (both : bool) (contraction_factor : float) (max_steps : Z)
    (min_slope : float) (s : locals) (t t1 : trace) (v : locals)
    (slope : float) :
  slope_phase f xtol min_slope s t = (Ok (Sloped v slope), t1) ->
  (slope =? 0) = false ->
  let c' := b v - f_b v / slope in
  converged both xtol ftol c' (b v) (f c') = false ->
  (f_a v * f_b v <? 0) = false ->
  (steps s + 1 <= max_steps)%Z ->
  exists s1 s2 : locals,
    Secant.iter f ftol xtol both max_steps min_slope s t
      = (Ok (Next s1), (t1 ++ [c'])%list) /\
    Hybrid.iter f ftol xtol both contraction_factor max_steps min_slope
      (Hybrid.State s 0) t
      = (Ok (Next (Hybrid.State s2 0)), (t1 ++ [c'])%list) /\
    pair_of s1 = (b v, f_b v, c', f c') /\
    pair_of s2 = pair_of s1 /\
    c s1 = Some c' /\ c s2 = Some c'.
Proof.
  intros Hslope Hnz c' Hconv Hbr Hguard.
  assert (Hsteps : steps v = steps s).
  { apply slope_phase_sloped in Hslope.
    destruct Hslope as [(Hv & _)|(Hv & _)]; subst v; reflexivity. }
  eexists. eexists. split; [|split].
  - rewrite (secant_iter_point f ftol xtol both max_steps min_slope s t t1
               v slope Hslope Hnz).
    fold c'. rewrite Hconv. rewrite Hsteps.
    destruct (Z.gtb_spec (steps s + 1) max_steps) as [Hgt|_]; [lia|].
    reflexivity.
  - rewrite hybrid_iter_dispatch by exact Hguard.
    cbn [Hybrid.use_bisection]. change (0 =? 0)%Z with true. cbv iota.
    rewrite (hybrid_regula_falsi_point f ftol xtol both contraction_factor
               min_slope (Hybrid.count (Hybrid.State s 0)) t t1
               (set_steps v (steps s + 1)) slope
               (slope_phase_counted f xtol min_slope s t t1 v slope
                  (steps s + 1) Hslope) Hnz).
    cbn [set_steps a b f_a f_b]. fold c'. rewrite Hconv.
    unfold Hybrid.update.
    cbn [Hybrid.vars Hybrid.use_bisection Hybrid.count set_calls set_c
         set_steps a b f_a f_b].
    rewrite Hbr. reflexivity.
  - cbn. repeat split; reflexivity.
Qed.

(** The theorem at the first pass on [plateau] from the pair [(0, 1)],
    whose values are 4 and 5. *)
Lemma hybrid_pass_is_secant_pass_witness :
  exists s1 s2 : locals,
    Secant.iter plateau 1e-6 1e-6 true 3000 1e-60
      (Locals 0 4 1 5 None 1 2) [0; 1]
    = (Ok (Next s1), [0; 1; -4]) /\
    Hybrid.iter plateau 1e-6 1e-6 true 0.7071 3000 1e-60
      (Hybrid.State (Locals 0 4 1 5 None 1 2) 0) [0; 1]
    = (Ok (Next (Hybrid.State s2 0)), [0; 1; -4]) /\
    pair_of s1 = (1, 5, -4, 5) /\
    pair_of s2 = pair_of s1.
Proof.
  destruct (hybrid_pass_is_secant_pass plateau 1e-6 1e-6 true 0.7071 3000
              1e-60 (Locals 0 4 1 5 None 1 2) [0; 1] [0; 1]
              (Locals 0 4 1 5 None 1 2) ((5 - 4) / (1 - 0)))
    as (s1 & s2 & Hsec & Hhyb & Hp1 & Hp2 & _);
    try (vm_compute; reflexivity).
  - cbn. lia.
  - exists s1, s2. repeat split; assumption.
Defined.

(** The pair update of the hybrid solver is that of the Regula Falsi
    solver: where the Regula Falsi update assigns a new pair, the hybrid
    update assigns the same one; where the Regula Falsi update leaves the
    locals alone (a point outside a bracketing pair), the hybrid update
    does so too and sets the countdown to 1. *)
Theorem hybrid_update_is_regula_falsi_update (contraction_factor : float)
    (v : locals) (n : Z) (c' f_c' : float) :
  match RegulaFalsi.update v c' f_c' with
  | Some v' =>
      Hybrid.vars (Hybrid.update contraction_factor (Hybrid.State v n)
                     c' f_c') = v'
  | None =>
      Hybrid.update contraction_factor (Hybrid.State v n) c' f_c'
      = Hybrid.State v 1
  end.
Proof.
  unfold RegulaFalsi.update, Hybrid.update. cbn [Hybrid.vars].
  destruct (f_a v * f_b v <? 0.0); [|reflexivity].
  destruct (negb _); [reflexivity|].
  destruct (0.0 <=? f_b v * f_c'); cbn [Hybrid.vars];
    match goal with |- context [if ?w then _ else _] => destruct w end;
    reflexivity.
Qed.
